(** * cube.js: a spinning cube with a video texture

    A shallow embedding of [docs/js/cube.js] and of the part of the browser
    the script talks to (document tree, event listeners, the promise returned
    by [video.play()], the animation-frame queue, the [window] object and the
    console), followed by the properties the specification states about it.

    The script is one function body that runs once and leaves callbacks
    behind.  Script code is written in a state and exception monad over a
    record holding the browser's state and the script's bindings; the browser
    is an event loop that takes one event at a time (a promise settles, a
    click, a resize, an animation frame, the video's [readyState] moves, a
    call typed in the console) and runs the callbacks registered for it.
    Every call the script makes to the outside is also appended to a trace.

    Numbers.  JavaScript numbers are IEEE doubles.  Pixel sizes are integers
    ([clientWidth], [innerWidth] are WebIDL [long]) and are modelled by [Z];
    the other numbers (device pixel ratio, time stamps, angles, the aspect
    ratio) are modelled by the rationals [Q] extended with [NaN] and the two
    infinities, rounding being abstracted away. *)

From Stdlib Require Import Ascii ZArith QArith Qminmax Lia Lqa.
From stdpp Require Import base list strings gmap.

Set Warnings "-register-all".
Local Open Scope Z_scope.

(** ** JavaScript values used by the script *)

Module Js.

Inductive number :=
| NaN
| PosInf
| NegInf
| Fin (q : Q).

(** A property that may be absent: [undefined] or a number. *)
Inductive value :=
| Undefined
| Num (n : number).

(** ToBoolean on numbers: [NaN] and [0] are falsy. *)
Definition truthy_number (n : number) : bool :=
  match n with
  | NaN => false
  | PosInf | NegInf => true
  | Fin q => negb (Qeq_bool q 0)
  end.

Definition truthy (v : value) : bool :=
  match v with
  | Undefined => false
  | Num n => truthy_number n
  end.

(** [v || d] with a number on the right. *)
Definition or_number (v : value) (d : number) : number :=
  match v with
  | Undefined => d
  | Num n => if truthy_number n then n else d
  end.

(** ToBoolean on a binding that holds an object or [undefined]. *)
Definition defined {A} (o : option A) : bool :=
  match o with
  | Some _ => true
  | None => false
  end.

(** [a || b] on integers: [0] is the only falsy one. *)
Definition or_int (a b : Z) : Z := if Z.eqb a 0 then b else a.

(** [Math.min(a, b)]. *)
Definition math_min (a b : number) : number :=
  match a, b with
  | NaN, _ | _, NaN => NaN
  | NegInf, _ | _, NegInf => NegInf
  | PosInf, y => y
  | x, PosInf => x
  | Fin x, Fin y => Fin (if Qle_bool x y then x else y)
  end.

(** [w / h] on integers. *)
Definition div_int (w h : Z) : number :=
  if Z.eqb h 0 then
    (if Z.eqb w 0 then NaN else if Z.ltb 0 w then PosInf else NegInf)
  else Fin (inject_Z w / inject_Z h)%Q.

(** Errors a script can throw. *)
Inductive error :=
| ReferenceError (name : string)
| TypeError (what : string)
| DOMException (name : string).

End Js.

(** ** The document tree *)

Module Dom.

Inductive Element := El {
  tag : string;
  eid : string;
  style : gmap string string;
  attrs : gmap string string;
  innerText : string;
  children : list Element
}.

(** A reference to a node of the document is the path leading to it. *)
Definition path := list nat.

Definition node (t : string) : Element :=
  El t "" ∅ ∅ "" [].

Definition set_id (i : string) (e : Element) : Element :=
  El (tag e) i (style e) (attrs e) (innerText e) (children e).

Definition set_style (k v : string) (e : Element) : Element :=
  El (tag e) (eid e) (<[k:=v]> (style e)) (attrs e) (innerText e) (children e).

Definition set_innerText (s : string) (e : Element) : Element :=
  El (tag e) (eid e) (style e) (attrs e) s (children e).

Definition set_children (cs : list Element) (e : Element) : Element :=
  El (tag e) (eid e) (style e) (attrs e) (innerText e) cs.

Definition push_child (c : Element) (e : Element) : Element :=
  set_children (children e ++ [c]) e.

Fixpoint get_at (p : path) (e : Element) : option Element :=
  match p with
  | [] => Some e
  | k :: p' =>
      match children e !! k with
      | Some c => get_at p' c
      | None => None
      end
  end.

(** Apply [f] to the node at [p]; a dangling path changes nothing. *)
Fixpoint alter_at (f : Element -> Element) (p : path) (e : Element) : Element :=
  match p with
  | [] => f e
  | k :: p' =>
      match children e !! k with
      | Some c => set_children (<[k := alter_at f p' c]> (children e)) e
      | None => e
      end
  end.

(** Number of children of the node at [p]. *)
Definition child_count (p : path) (e : Element) : nat :=
  match get_at p e with
  | Some x => length (children x)
  | None => 0%nat
  end.

(** First hit of [f] among the nodes [cs], numbered from [k]. *)
Definition first_in {A} (f : A -> option path) : list A -> nat -> option path :=
  fix go cs k :=
    match cs with
    | [] => None
    | c :: cs' =>
        match f c with
        | Some p => Some (k :: p)
        | None => go cs' (S k)
        end
    end.

(** [getElementById]: the first element in tree order with that id. *)
Fixpoint find_id (i : string) (e : Element) : option path :=
  match e with
  | El _ i' _ _ _ cs =>
      if String.eqb i' i then Some [] else first_in (find_id i) cs 0%nat
  end.

Definition sum_over {A} (f : A -> nat) : list A -> nat :=
  fix go cs :=
    match cs with
    | [] => 0%nat
    | c :: cs' => (f c + go cs')%nat
    end.

(** Number of elements of the tree satisfying [P]. *)
Fixpoint count (P : Element -> bool) (e : Element) : nat :=
  match e with
  | El _ _ _ _ _ cs => ((if P e then 1 else 0) + sum_over (count P) cs)%nat
  end.

Definition has_id (i : string) (e : Element) : bool := String.eqb (eid e) i.
Definition has_tag (t : string) (e : Element) : bool := String.eqb (tag e) t.

Definition count_id (i : string) : Element -> nat := count (has_id i).
Definition count_tag (t : string) : Element -> nat := count (has_tag t).

(** [document.body]: the first child of the root that is a [body]. *)
Definition find_body (root : Element) : option path :=
  first_in (fun c => if has_tag "body" c then Some [] else None) (children root) 0%nat.

End Dom.

(** ** Objects of the rendering library *)

Module Three.

(** The global [THREE].  Newer releases give textures a [colorSpace]
    property, older ones an [encoding] property only. *)
Record Lib := { has_colorSpace : bool }.

(** Fields hold [None] until something is assigned to them. *)
Record Texture := {
  minFilter : option string;
  magFilter : option string;
  generateMipmaps : option bool;
  colorSpace : option string;
  encoding : option string;
  needsUpdate : bool
}.

(** [new THREE.VideoTexture(video)] *)
Definition new_VideoTexture (lib : Lib) : Texture :=
  {| minFilter := None; magFilter := None; generateMipmaps := None;
     colorSpace := if has_colorSpace lib then Some "" else None;
     encoding := None; needsUpdate := false |}.

(** The only texture of the page is the one held by the script variable
    [videoTexture]; a material refers to it, it does not copy it. *)
Inductive TextureRef := TheVideoTexture.

Record Material := {
  color : option Z;
  map : option TextureRef;
  mat_needsUpdate : bool
}.

(** [new THREE.MeshBasicMaterial({ color: c })] *)
Definition colored (c : Z) : Material :=
  {| color := Some c; map := None; mat_needsUpdate := false |}.

(** [new THREE.MeshBasicMaterial({ map: t })] *)
Definition textured (t : TextureRef) : Material :=
  {| color := None; map := Some t; mat_needsUpdate := false |}.

Record Mesh := {
  geometry : Q * Q * Q;
  material : Material;
  rotation_x : Q;
  rotation_y : Q
}.

Record Camera := {
  fov : Q;
  aspect : Js.number;
  near : Q;
  far : Q;
  position : Q * Q * Q;
  projection_updates : nat
}.

Record Renderer := {
  pixelRatio : option Js.number;
  outputEncoding : option string;
  size : option (Z * Z);
  domElement : Dom.Element;
  rendered : nat
}.

(** The objects a scene or a debugging handle can refer to. *)
Inductive Ref := RVideo | RCube | RRenderer | RScene | RCamera.

Record Scene := { scene_children : list Ref }.

End Three.

(** ** The browser as the script sees it *)

Module Browser.

(** The functions of the script that the browser can call back. *)
Inductive Fn := FnTryPlay | FnOnResize | FnAnimate | FnShowVideoURL.

(** An entry of an event target's listener list. *)
Record Listener := {
  l_type : string;
  l_fn : Fn;
  l_once : bool;
  l_passive : bool
}.

Inductive Target := TOverlay | TWindow.

(** Sizes read by the resize handler: the container's client box and the
    window's inner box. *)
Record Layout := {
  clientWidth : Z;
  clientHeight : Z;
  innerWidth : Z;
  innerHeight : Z
}.

(** A property of [window]. *)
Inductive Global :=
| GFunction (f : Fn)
| GObject (fields : list (string * Three.Ref))
| GHost (what : string).

(** The two places of the script that call [video.play()]; each call
    returns a promise of its own. *)
Inductive PlayCall := Autoplay | Retry.

Inductive Outcome :=
| Resolved
| Rejected (reason : Js.error).

(** The [video] element; it is never inserted into the document.  [src]
    is the string assigned to it. *)
Record Video := {
  src : string;
  crossOrigin : string;
  loop : bool;
  muted : bool;
  playsInline : bool;
  preload : string;
  video_attrs : gmap string string;
  readyState : Z
}.

Inductive Level := Info | Warn | Log.

(** What the script does to the outside, in the order it does it. *)
Inductive Effect :=
| EGetElementById (i : string) (found : bool)
| ECreateElement (t : string)
| EAppendChild (parent : Dom.path) (t : string)
| ENewRenderer
| ESetPixelRatio (r : Js.number)
| ENewScene
| ENewCamera
| ENewGeometry
| ENewMaterial (textured : bool)
| ENewMesh
| ESceneAdd
| EAddListener (on : Target) (ty : string) (f : Fn)
| EPlay (c : PlayCall)
| ENewVideoTexture
| ESetMaterial
| ESetSize (w h : Z)
| EUpdateProjection
| ENow
| ERequestFrame (f : Fn)
| ERender
| ESetGlobal (name : string)
| EConsole (l : Level) (msg : string).

(** What the page provides before the script runs. *)
Record Page := {
  page_three : option Three.Lib;
  page_document : Dom.Element;
  page_devicePixelRatio : Js.value;
  page_layout : Layout;
  page_now : Q;
  page_origin : string;
  page_resolve : string -> string;   (* a URL, parsed against the document's base URL *)
  page_window : gmap string string   (* what the host and other scripts put there *)
}.

End Browser.

(** ** The script *)

Module Cube.

Import Dom Three Browser.

(** *** State: the browser's and the script's *)

Record World := {
  (* browser *)
  three : option Lib;
  document : Element;
  devicePixelRatio : Js.value;
  layout : Layout;
  now : Q;
  origin : string;
  resolve_url : string -> string;   (* how a URL attribute reads back *)
  window : gmap string Global;
  window_listeners : list Listener;
  overlay_listeners : list Listener;
  frame_queue : list Fn;
  plays : list PlayCall;
  trace : list Effect;
  uncaught : list Js.error;
  (* bindings of the script; [None] before their declaration is reached
     ([videoTexture] also after it, until it is assigned; [materialSet] is
     read by callbacks only, which run after the body) *)
  container : option path;
  renderer : option Renderer;
  scene : option Scene;
  camera : option Camera;
  cube : option Mesh;
  video : option Video;
  overlay : option path;
  videoTexture : option Texture;
  materialSet : bool;
  last : option Q
}.

Definition boot (p : Page) : World :=
  {| three := page_three p; document := page_document p;
     devicePixelRatio := page_devicePixelRatio p; layout := page_layout p;
     now := page_now p; origin := page_origin p;
     resolve_url := page_resolve p; window := GHost <$> page_window p;
     window_listeners := []; overlay_listeners := []; frame_queue := [];
     plays := []; trace := []; uncaught := [];
     container := None; renderer := None; scene := None; camera := None;
     cube := None; video := None; overlay := None; videoTexture := None;
     materialSet := false; last := None |}.

(** Field updates. *)

Definition with_document (x : Element) (w : World) : World :=
  {| three := three w; document := x; devicePixelRatio := devicePixelRatio w;
     layout := layout w; now := now w; origin := origin w;
     resolve_url := resolve_url w; window := window w;
     window_listeners := window_listeners w;
     overlay_listeners := overlay_listeners w; frame_queue := frame_queue w;
     plays := plays w; trace := trace w; uncaught := uncaught w;
     container := container w; renderer := renderer w; scene := scene w;
     camera := camera w; cube := cube w; video := video w; overlay := overlay w;
     videoTexture := videoTexture w; materialSet := materialSet w; last := last w |}.

Definition with_layout (x : Layout) (w : World) : World :=
  {| three := three w; document := document w;
     devicePixelRatio := devicePixelRatio w; layout := x; now := now w;
     origin := origin w;
     resolve_url := resolve_url w; window := window w; window_listeners := window_listeners w;
     overlay_listeners := overlay_listeners w; frame_queue := frame_queue w;
     plays := plays w; trace := trace w; uncaught := uncaught w;
     container := container w; renderer := renderer w; scene := scene w;
     camera := camera w; cube := cube w; video := video w; overlay := overlay w;
     videoTexture := videoTexture w; materialSet := materialSet w; last := last w |}.

Definition with_window (x : gmap string Global) (w : World) : World :=
  {| three := three w; document := document w;
     devicePixelRatio := devicePixelRatio w; layout := layout w; now := now w;
     origin := origin w;
     resolve_url := resolve_url w; window := x; window_listeners := window_listeners w;
     overlay_listeners := overlay_listeners w; frame_queue := frame_queue w;
     plays := plays w; trace := trace w; uncaught := uncaught w;
     container := container w; renderer := renderer w; scene := scene w;
     camera := camera w; cube := cube w; video := video w; overlay := overlay w;
     videoTexture := videoTexture w; materialSet := materialSet w; last := last w |}.

Definition with_window_listeners (x : list Listener) (w : World) : World :=
  {| three := three w; document := document w;
     devicePixelRatio := devicePixelRatio w; layout := layout w; now := now w;
     origin := origin w;
     resolve_url := resolve_url w; window := window w; window_listeners := x;
     overlay_listeners := overlay_listeners w; frame_queue := frame_queue w;
     plays := plays w; trace := trace w; uncaught := uncaught w;
     container := container w; renderer := renderer w; scene := scene w;
     camera := camera w; cube := cube w; video := video w; overlay := overlay w;
     videoTexture := videoTexture w; materialSet := materialSet w; last := last w |}.

Definition with_overlay_listeners (x : list Listener) (w : World) : World :=
  {| three := three w; document := document w;
     devicePixelRatio := devicePixelRatio w; layout := layout w; now := now w;
     origin := origin w;
     resolve_url := resolve_url w; window := window w; window_listeners := window_listeners w;
     overlay_listeners := x; frame_queue := frame_queue w; plays := plays w;
     trace := trace w; uncaught := uncaught w; container := container w;
     renderer := renderer w; scene := scene w; camera := camera w; cube := cube w;
     video := video w; overlay := overlay w; videoTexture := videoTexture w;
     materialSet := materialSet w; last := last w |}.

Definition with_frame_queue (x : list Fn) (w : World) : World :=
  {| three := three w; document := document w;
     devicePixelRatio := devicePixelRatio w; layout := layout w; now := now w;
     origin := origin w;
     resolve_url := resolve_url w; window := window w; window_listeners := window_listeners w;
     overlay_listeners := overlay_listeners w; frame_queue := x; plays := plays w;
     trace := trace w; uncaught := uncaught w; container := container w;
     renderer := renderer w; scene := scene w; camera := camera w; cube := cube w;
     video := video w; overlay := overlay w; videoTexture := videoTexture w;
     materialSet := materialSet w; last := last w |}.

Definition with_plays (x : list PlayCall) (w : World) : World :=
  {| three := three w; document := document w;
     devicePixelRatio := devicePixelRatio w; layout := layout w; now := now w;
     origin := origin w;
     resolve_url := resolve_url w; window := window w; window_listeners := window_listeners w;
     overlay_listeners := overlay_listeners w; frame_queue := frame_queue w;
     plays := x; trace := trace w; uncaught := uncaught w; container := container w;
     renderer := renderer w; scene := scene w; camera := camera w; cube := cube w;
     video := video w; overlay := overlay w; videoTexture := videoTexture w;
     materialSet := materialSet w; last := last w |}.

Definition with_trace (x : list Effect) (w : World) : World :=
  {| three := three w; document := document w;
     devicePixelRatio := devicePixelRatio w; layout := layout w; now := now w;
     origin := origin w;
     resolve_url := resolve_url w; window := window w; window_listeners := window_listeners w;
     overlay_listeners := overlay_listeners w; frame_queue := frame_queue w;
     plays := plays w; trace := x; uncaught := uncaught w; container := container w;
     renderer := renderer w; scene := scene w; camera := camera w; cube := cube w;
     video := video w; overlay := overlay w; videoTexture := videoTexture w;
     materialSet := materialSet w; last := last w |}.

Definition with_uncaught (x : list Js.error) (w : World) : World :=
  {| three := three w; document := document w;
     devicePixelRatio := devicePixelRatio w; layout := layout w; now := now w;
     origin := origin w;
     resolve_url := resolve_url w; window := window w; window_listeners := window_listeners w;
     overlay_listeners := overlay_listeners w; frame_queue := frame_queue w;
     plays := plays w; trace := trace w; uncaught := x; container := container w;
     renderer := renderer w; scene := scene w; camera := camera w; cube := cube w;
     video := video w; overlay := overlay w; videoTexture := videoTexture w;
     materialSet := materialSet w; last := last w |}.

Definition with_container (x : option path) (w : World) : World :=
  {| three := three w; document := document w;
     devicePixelRatio := devicePixelRatio w; layout := layout w; now := now w;
     origin := origin w;
     resolve_url := resolve_url w; window := window w; window_listeners := window_listeners w;
     overlay_listeners := overlay_listeners w; frame_queue := frame_queue w;
     plays := plays w; trace := trace w; uncaught := uncaught w; container := x;
     renderer := renderer w; scene := scene w; camera := camera w; cube := cube w;
     video := video w; overlay := overlay w; videoTexture := videoTexture w;
     materialSet := materialSet w; last := last w |}.

Definition with_renderer (x : option Renderer) (w : World) : World :=
  {| three := three w; document := document w;
     devicePixelRatio := devicePixelRatio w; layout := layout w; now := now w;
     origin := origin w;
     resolve_url := resolve_url w; window := window w; window_listeners := window_listeners w;
     overlay_listeners := overlay_listeners w; frame_queue := frame_queue w;
     plays := plays w; trace := trace w; uncaught := uncaught w;
     container := container w; renderer := x; scene := scene w; camera := camera w;
     cube := cube w; video := video w; overlay := overlay w;
     videoTexture := videoTexture w; materialSet := materialSet w; last := last w |}.

Definition with_scene (x : option Scene) (w : World) : World :=
  {| three := three w; document := document w;
     devicePixelRatio := devicePixelRatio w; layout := layout w; now := now w;
     origin := origin w;
     resolve_url := resolve_url w; window := window w; window_listeners := window_listeners w;
     overlay_listeners := overlay_listeners w; frame_queue := frame_queue w;
     plays := plays w; trace := trace w; uncaught := uncaught w;
     container := container w; renderer := renderer w; scene := x;
     camera := camera w; cube := cube w; video := video w; overlay := overlay w;
     videoTexture := videoTexture w; materialSet := materialSet w; last := last w |}.

Definition with_camera (x : option Camera) (w : World) : World :=
  {| three := three w; document := document w;
     devicePixelRatio := devicePixelRatio w; layout := layout w; now := now w;
     origin := origin w;
     resolve_url := resolve_url w; window := window w; window_listeners := window_listeners w;
     overlay_listeners := overlay_listeners w; frame_queue := frame_queue w;
     plays := plays w; trace := trace w; uncaught := uncaught w;
     container := container w; renderer := renderer w; scene := scene w; camera := x;
     cube := cube w; video := video w; overlay := overlay w;
     videoTexture := videoTexture w; materialSet := materialSet w; last := last w |}.

Definition with_cube (x : option Mesh) (w : World) : World :=
  {| three := three w; document := document w;
     devicePixelRatio := devicePixelRatio w; layout := layout w; now := now w;
     origin := origin w;
     resolve_url := resolve_url w; window := window w; window_listeners := window_listeners w;
     overlay_listeners := overlay_listeners w; frame_queue := frame_queue w;
     plays := plays w; trace := trace w; uncaught := uncaught w;
     container := container w; renderer := renderer w; scene := scene w;
     camera := camera w; cube := x; video := video w; overlay := overlay w;
     videoTexture := videoTexture w; materialSet := materialSet w; last := last w |}.

Definition with_video (x : option Video) (w : World) : World :=
  {| three := three w; document := document w;
     devicePixelRatio := devicePixelRatio w; layout := layout w; now := now w;
     origin := origin w;
     resolve_url := resolve_url w; window := window w; window_listeners := window_listeners w;
     overlay_listeners := overlay_listeners w; frame_queue := frame_queue w;
     plays := plays w; trace := trace w; uncaught := uncaught w;
     container := container w; renderer := renderer w; scene := scene w;
     camera := camera w; cube := cube w; video := x; overlay := overlay w;
     videoTexture := videoTexture w; materialSet := materialSet w; last := last w |}.

Definition with_overlay (x : option path) (w : World) : World :=
  {| three := three w; document := document w;
     devicePixelRatio := devicePixelRatio w; layout := layout w; now := now w;
     origin := origin w;
     resolve_url := resolve_url w; window := window w; window_listeners := window_listeners w;
     overlay_listeners := overlay_listeners w; frame_queue := frame_queue w;
     plays := plays w; trace := trace w; uncaught := uncaught w;
     container := container w; renderer := renderer w; scene := scene w;
     camera := camera w; cube := cube w; video := video w; overlay := x;
     videoTexture := videoTexture w; materialSet := materialSet w; last := last w |}.

Definition with_videoTexture (x : option Texture) (w : World) : World :=
  {| three := three w; document := document w;
     devicePixelRatio := devicePixelRatio w; layout := layout w; now := now w;
     origin := origin w;
     resolve_url := resolve_url w; window := window w; window_listeners := window_listeners w;
     overlay_listeners := overlay_listeners w; frame_queue := frame_queue w;
     plays := plays w; trace := trace w; uncaught := uncaught w;
     container := container w; renderer := renderer w; scene := scene w;
     camera := camera w; cube := cube w; video := video w; overlay := overlay w;
     videoTexture := x; materialSet := materialSet w; last := last w |}.

Definition with_materialSet (x : bool) (w : World) : World :=
  {| three := three w; document := document w;
     devicePixelRatio := devicePixelRatio w; layout := layout w; now := now w;
     origin := origin w;
     resolve_url := resolve_url w; window := window w; window_listeners := window_listeners w;
     overlay_listeners := overlay_listeners w; frame_queue := frame_queue w;
     plays := plays w; trace := trace w; uncaught := uncaught w;
     container := container w; renderer := renderer w; scene := scene w;
     camera := camera w; cube := cube w; video := video w; overlay := overlay w;
     videoTexture := videoTexture w; materialSet := x; last := last w |}.

Definition with_last (x : option Q) (w : World) : World :=
  {| three := three w; document := document w;
     devicePixelRatio := devicePixelRatio w; layout := layout w; now := now w;
     origin := origin w;
     resolve_url := resolve_url w; window := window w; window_listeners := window_listeners w;
     overlay_listeners := overlay_listeners w; frame_queue := frame_queue w;
     plays := plays w; trace := trace w; uncaught := uncaught w;
     container := container w; renderer := renderer w; scene := scene w;
     camera := camera w; cube := cube w; video := video w; overlay := overlay w;
     videoTexture := videoTexture w; materialSet := materialSet w; last := x |}.

(** *** A state and exception monad for script code

    A computation runs on the world and either returns or throws; what it
    did before throwing stays done. *)

Definition M (A : Type) : Type := World -> World * (Js.error + A).

Definition ret {A} (a : A) : M A := fun w => (w, inr a).

Definition bind {A B} (m : M A) (k : A -> M B) : M B :=
  fun w =>
    match m w with
    | (w', inl e) => (w', inl e)
    | (w', inr a) => k a w'
    end.

Definition throw {A} (e : Js.error) : M A := fun w => (w, inl e).

Definition get : M World := fun w => (w, inr w).

Definition modify (f : World -> World) : M unit := fun w => (f w, inr tt).

(** [try { m } catch (e) { h e }] *)
Definition try_catch {A} (m : M A) (h : Js.error -> M A) : M A :=
  fun w =>
    match m w with
    | (w', inl e) => h e w'
    | r => r
    end.

Notation "x <- m ;; k" := (bind m (fun x => k))
  (at level 100, m at next level, right associativity, only parsing).
Notation "m ;; k" := (bind m (fun _ => k))
  (at level 100, right associativity, only parsing).

Definition emit (e : Effect) : M unit :=
  modify (fun w => with_trace (trace w ++ [e]) w).

(** Reading a binding whose declaration has not run yet. *)
Definition binding {A} (name : string) (field : World -> option A) : M A :=
  w <- get;;
  match field w with
  | Some a => ret a
  | None => throw (Js.ReferenceError name)
  end.

(** *** Browser interfaces *)

Definition console (l : Level) (msg : string) : M unit := emit (EConsole l msg).

(** The global [THREE]. *)
Definition THREE : M Lib :=
  w <- get;;
  match three w with
  | Some lib => ret lib
  | None => throw (Js.ReferenceError "THREE")
  end.

Definition getElementById (i : string) : M (option path) :=
  w <- get;;
  let r := find_id i (document w) in
  emit (EGetElementById i (Js.defined r));;
  ret r.

Definition createElement (t : string) : M Element :=
  emit (ECreateElement t);;
  ret (node t).

(** [document.body.appendChild] dereferences [document.body]. *)
Definition document_body : M path :=
  w <- get;;
  match find_body (document w) with
  | Some p => ret p
  | None => throw (Js.TypeError "document.body is null")
  end.

(** [parent.appendChild(c)]; answers the place of the new child. *)
Definition appendChild (parent : path) (c : Element) : M path :=
  w <- get;;
  let n := child_count parent (document w) in
  modify (fun w => with_document (alter_at (push_child c) parent (document w)) w);;
  emit (EAppendChild parent (tag c));;
  ret (parent ++ [n]).

Definition listeners (on : Target) (w : World) : list Listener :=
  match on with
  | TOverlay => overlay_listeners w
  | TWindow => window_listeners w
  end.

Definition with_listeners (on : Target) (ls : list Listener) : World -> World :=
  match on with
  | TOverlay => with_overlay_listeners ls
  | TWindow => with_window_listeners ls
  end.

Definition fn_eqb (f g : Fn) : bool :=
  match f, g with
  | FnTryPlay, FnTryPlay | FnOnResize, FnOnResize
  | FnAnimate, FnAnimate | FnShowVideoURL, FnShowVideoURL => true
  | _, _ => false
  end.

Definition same_listener (a b : Listener) : bool :=
  String.eqb (l_type a) (l_type b) && fn_eqb (l_fn a) (l_fn b).

(** [target.addEventListener(ty, f, { once, passive })]: a listener with
    the same type and callback is not added twice. *)
Definition addEventListener (on : Target) (ty : string) (f : Fn)
    (once passive : bool) : M unit :=
  let l := {| l_type := ty; l_fn := f; l_once := once; l_passive := passive |} in
  emit (EAddListener on ty f);;
  modify (fun w =>
    if existsb (same_listener l) (listeners on w) then w
    else with_listeners on (listeners on w ++ [l]) w).

(** [video.play()]: the browser starts loading and answers a promise that
    it settles later. *)
Definition video_play (c : PlayCall) : M unit :=
  _ <- binding "video" video;;
  emit (EPlay c);;
  modify (fun w => with_plays (plays w ++ [c]) w).

Definition requestAnimationFrame (f : Fn) : M unit :=
  emit (ERequestFrame f);;
  modify (fun w => with_frame_queue (frame_queue w ++ [f]) w).

Definition performance_now : M Q :=
  w <- get;;
  emit ENow;;
  ret (now w).

Definition set_global (name : string) (g : Global) : M unit :=
  emit (ESetGlobal name);;
  modify (fun w => with_window (<[name := g]> (window w)) w).

(** *** Updates of the library objects *)

Definition tex_minFilter (x : string) (t : Texture) : Texture :=
  {| minFilter := Some x; magFilter := magFilter t;
     generateMipmaps := generateMipmaps t; colorSpace := colorSpace t;
     encoding := encoding t; needsUpdate := needsUpdate t |}.

Definition tex_magFilter (x : string) (t : Texture) : Texture :=
  {| minFilter := minFilter t; magFilter := Some x;
     generateMipmaps := generateMipmaps t; colorSpace := colorSpace t;
     encoding := encoding t; needsUpdate := needsUpdate t |}.

Definition tex_generateMipmaps (x : bool) (t : Texture) : Texture :=
  {| minFilter := minFilter t; magFilter := magFilter t;
     generateMipmaps := Some x; colorSpace := colorSpace t;
     encoding := encoding t; needsUpdate := needsUpdate t |}.

Definition tex_colorSpace (x : string) (t : Texture) : Texture :=
  {| minFilter := minFilter t; magFilter := magFilter t;
     generateMipmaps := generateMipmaps t; colorSpace := Some x;
     encoding := encoding t; needsUpdate := needsUpdate t |}.

Definition tex_encoding (x : string) (t : Texture) : Texture :=
  {| minFilter := minFilter t; magFilter := magFilter t;
     generateMipmaps := generateMipmaps t; colorSpace := colorSpace t;
     encoding := Some x; needsUpdate := needsUpdate t |}.

Definition tex_needsUpdate (x : bool) (t : Texture) : Texture :=
  {| minFilter := minFilter t; magFilter := magFilter t;
     generateMipmaps := generateMipmaps t; colorSpace := colorSpace t;
     encoding := encoding t; needsUpdate := x |}.

Definition mat_set_needsUpdate (x : bool) (m : Material) : Material :=
  {| color := color m; map := map m; mat_needsUpdate := x |}.

Definition mesh_material (m : Material) (c : Mesh) : Mesh :=
  {| geometry := geometry c; material := m;
     rotation_x := rotation_x c; rotation_y := rotation_y c |}.

Definition mesh_rotate_x (d : Q) (c : Mesh) : Mesh :=
  {| geometry := geometry c; material := material c;
     rotation_x := (rotation_x c + d)%Q; rotation_y := rotation_y c |}.

Definition mesh_rotate_y (d : Q) (c : Mesh) : Mesh :=
  {| geometry := geometry c; material := material c;
     rotation_x := rotation_x c; rotation_y := (rotation_y c + d)%Q |}.

Definition cam_aspect (a : Js.number) (c : Camera) : Camera :=
  {| fov := fov c; aspect := a; near := near c; far := far c;
     position := position c; projection_updates := projection_updates c |}.

Definition cam_position (p : Q * Q * Q) (c : Camera) : Camera :=
  {| fov := fov c; aspect := aspect c; near := near c; far := far c;
     position := p; projection_updates := projection_updates c |}.

Definition cam_updateProjectionMatrix (c : Camera) : Camera :=
  {| fov := fov c; aspect := aspect c; near := near c; far := far c;
     position := position c; projection_updates := S (projection_updates c) |}.

Definition rd_pixelRatio (x : Js.number) (r : Renderer) : Renderer :=
  {| pixelRatio := Some x; outputEncoding := outputEncoding r; size := size r;
     domElement := domElement r; rendered := rendered r |}.

Definition rd_outputEncoding (x : string) (r : Renderer) : Renderer :=
  {| pixelRatio := pixelRatio r; outputEncoding := Some x; size := size r;
     domElement := domElement r; rendered := rendered r |}.

Definition rd_size (w h : Z) (r : Renderer) : Renderer :=
  {| pixelRatio := pixelRatio r; outputEncoding := outputEncoding r;
     size := Some (w, h); domElement := domElement r; rendered := rendered r |}.

Definition rd_render (r : Renderer) : Renderer :=
  {| pixelRatio := pixelRatio r; outputEncoding := outputEncoding r;
     size := size r; domElement := domElement r; rendered := S (rendered r) |}.

Definition vid_readyState (x : Z) (v : Video) : Video :=
  {| src := src v; crossOrigin := crossOrigin v; loop := loop v; muted := muted v;
     playsInline := playsInline v; preload := preload v;
     video_attrs := video_attrs v; readyState := x |}.

(** Assignments through the script's bindings.  Assigning to a property of
    [videoTexture] while it is still [undefined] is a [TypeError]. *)

Definition on_videoTexture (f : Texture -> Texture) : M unit :=
  w <- get;;
  match videoTexture w with
  | Some t => modify (with_videoTexture (Some (f t)))
  | None => throw (Js.TypeError "videoTexture is undefined")
  end.

Definition on_cube (f : Mesh -> Mesh) : M unit :=
  c <- binding "cube" cube;;
  modify (with_cube (Some (f c))).

Definition on_camera (f : Camera -> Camera) : M unit :=
  c <- binding "camera" camera;;
  modify (with_camera (Some (f c))).

Definition on_renderer (f : Renderer -> Renderer) : M unit :=
  r <- binding "renderer" renderer;;
  modify (with_renderer (Some (f r))).

(** *** The functions of the script *)

Definition VIDEO_SRC : string := "images/hanterrace.mp4".
Definition CONTAINER_ID : string := "three-container".

Definition hideOverlay : M unit :=
  p <- binding "overlay" overlay;;
  modify (fun w => with_document (alter_at (set_style "display" "none") p (document w)) w).

Definition setupVideoTexture : M unit :=
  w <- get;;
  if materialSet w then ret tt
  else
    lib <- THREE;;
    _ <- binding "video" video;;
    emit ENewVideoTexture;;
    modify (with_videoTexture (Some (new_VideoTexture lib)));;
    on_videoTexture (tex_minFilter "LinearFilter");;
    on_videoTexture (tex_magFilter "LinearFilter");;
    on_videoTexture (tex_generateMipmaps false);;
    t <- binding "videoTexture" videoTexture;;
    (if Js.defined (colorSpace t)
     then on_videoTexture (tex_colorSpace "srgb")
     else on_videoTexture (tex_encoding "sRGBEncoding"));;
    emit (ENewMaterial true);;
    let mat := mat_set_needsUpdate true (textured TheVideoTexture) in
    emit ESetMaterial;;
    on_cube (mesh_material mat);;
    modify (with_materialSet true);;
    console Info "Video texture applied to cube.".

(** The callbacks given to [.then] and [.catch] at the two calls of
    [video.play()]. *)
Definition on_played : M unit :=
  setupVideoTexture;;
  hideOverlay.

Definition error_text (e : Js.error) : string :=
  match e with
  | Js.ReferenceError n => String.append "ReferenceError: " n
  | Js.TypeError n => String.append "TypeError: " n
  | Js.DOMException n => String.append "DOMException: " n
  end.

Definition on_blocked (c : PlayCall) (err : Js.error) : M unit :=
  match c with
  | Autoplay => console Info "Autoplay blocked — click to play the video."
  | Retry => console Warn (String.append "Playback still blocked: " (error_text err))
  end.

Definition tryPlay : M unit := video_play Retry.

(** Line 123: [container.clientWidth || window.innerWidth] *)
Definition resize_width (l : Layout) : Z :=
  Js.or_int (clientWidth l) (innerWidth l).

(** Line 124: [container.clientHeight || window.innerHeight] *)
Definition resize_height (l : Layout) : Z :=
  Js.or_int (clientHeight l) (innerHeight l).

Definition onResize : M unit :=
  _ <- binding "container" container;;
  l <- (w <- get;; ret (layout w));;
  let w := resize_width l in
  let h := resize_height l in
  emit (ESetSize w h);;
  on_renderer (rd_size w h);;
  on_camera (cam_aspect (Js.div_int w h));;
  emit EUpdateProjection;;
  on_camera cam_updateProjectionMatrix.

Definition animate (t : Q) : M unit :=
  requestAnimationFrame FnAnimate;;
  l <- binding "last" last;;
  let dt := ((t - l) / 1000)%Q in
  modify (with_last (Some t));;
  on_cube (mesh_rotate_x (dt * (35 # 100))%Q);;
  on_cube (mesh_rotate_y (dt * (6 # 10))%Q);;
  ready <- (w <- get;;
            if Js.defined (videoTexture w)
            then v <- binding "video" video;; ret (Z.leb 2 (readyState v))
            else ret false);;
  (if ready : bool then on_videoTexture (tex_needsUpdate true) else ret tt);;
  _ <- binding "scene" scene;;
  _ <- binding "camera" camera;;
  emit ERender;;
  on_renderer rd_render.

(** [s.replace(/^\//, "")] *)
Definition strip_slash (s : string) : string :=
  match s with
  | String "/"%char r => r
  | _ => s
  end.

(** [video.src], read: the attribute as the browser resolves it against the
    document's base URL, not the string that was assigned. *)
Definition video_src (w : World) (v : Video) : string :=
  resolve_url w (src v).

Definition showVideoURL : M unit :=
  v <- binding "video" video;;
  w0 <- get;;
  console Log (String.append "Video src: " (video_src w0 v));;
  console Log "Attempt to open this URL in a new tab to confirm it's reachable:";;
  w <- get;;
  console Log (String.append (origin w) (String.append "/" (strip_slash VIDEO_SRC))).

Definition call (f : Fn) (t : Q) : M unit :=
  match f with
  | FnTryPlay => tryPlay
  | FnOnResize => onResize
  | FnAnimate => animate t
  | FnShowVideoURL => showVideoURL
  end.

(** *** The body of the script, top to bottom *)

(** Lines 14-18: what is assigned to the new [div]. *)
Definition container_div (e : Element) : Element :=
  let e := set_id CONTAINER_ID e in
  let e := set_style "position" "fixed" e in
  let e := set_style "inset" "0" e in
  set_style "zIndex" "0" e.

(** Lines 11-20.  The new [div] gets its id and style before it is
    appended; [container] is recorded as the place where it ends up. *)
Definition setup_container : M unit :=
  found <- getElementById CONTAINER_ID;;
  match found with
  | Some p => modify (with_container (Some p))
  | None =>
      e <- createElement "div";;
      body <- document_body;;
      p <- appendChild body (container_div e);;
      modify (with_container (Some p))
  end.

(** [new THREE.WebGLRenderer({ antialias: true })] comes with a canvas. *)
Definition new_WebGLRenderer : Renderer :=
  {| pixelRatio := None; outputEncoding := None; size := None;
     domElement := node "canvas"; rendered := 0 |}.

(** Line 24: [Math.min(window.devicePixelRatio || 1, 2)] *)
Definition capped_pixel_ratio (dpr : Js.value) : Js.number :=
  Js.math_min (Js.or_number dpr (Js.Fin 1)) (Js.Fin 2).

(** Lines 23-26. *)
Definition setup_renderer : M unit :=
  _ <- THREE;;
  emit ENewRenderer;;
  modify (with_renderer (Some new_WebGLRenderer));;
  w <- get;;
  let r := capped_pixel_ratio (devicePixelRatio w) in
  emit (ESetPixelRatio r);;
  on_renderer (rd_pixelRatio r);;
  on_renderer (rd_outputEncoding "sRGBEncoding");;
  c <- binding "container" container;;
  r <- binding "renderer" renderer;;
  _ <- appendChild c (domElement r);;
  ret tt.

(** [new THREE.PerspectiveCamera(fov, aspect, near, far)] *)
Definition new_PerspectiveCamera (f a n r : Q) : Camera :=
  {| fov := f; aspect := Js.Fin a; near := n; far := r; position := (0, 0, 0)%Q;
     projection_updates := 0 |}.

(** [new THREE.Mesh(geometry, material)] *)
Definition new_Mesh (g : Q * Q * Q) (m : Material) : Mesh :=
  {| geometry := g; material := m; rotation_x := 0; rotation_y := 0 |}.

(** Lines 29-38. *)
Definition setup_scene : M unit :=
  emit ENewScene;;
  modify (with_scene (Some {| scene_children := [] |}));;
  emit ENewCamera;;
  modify (with_camera (Some (new_PerspectiveCamera 50 1 (1 # 10) 100)));;
  on_camera (cam_position (0, 0, 3)%Q);;
  emit ENewGeometry;;
  emit (ENewMaterial false);;
  let placeholderMat := colored 2236962 (* 0x222222 *) in
  emit ENewMesh;;
  modify (with_cube (Some (new_Mesh (3 # 2, 3 # 2, 3 # 2)%Q placeholderMat)));;
  s <- binding "scene" scene;;
  emit ESceneAdd;;
  modify (with_scene (Some {| scene_children := scene_children s ++ [RCube] |})).

(** Lines 41-48: the element as it is after the assignments. *)
Definition video_element : Video :=
  {| src := VIDEO_SRC; crossOrigin := "anonymous"; loop := true; muted := true;
     playsInline := true; preload := "auto";
     video_attrs := {[ "webkit-playsinline" := "" ]}; readyState := 0 |}.

Definition setup_video : M unit :=
  _ <- createElement "video";;
  modify (with_video (Some video_element)).

Definition overlay_style : list (string * string) :=
  [ ("position", "fixed"); ("left", "50%"); ("top", "50%");
    ("transform", "translate(-50%, -50%)"); ("padding", "10px 18px");
    ("fontSize", "16px"); ("background", "rgba(0,0,0,0.6)"); ("color", "#fff");
    ("border", "1px solid rgba(255,255,255,0.12)"); ("borderRadius", "8px");
    ("cursor", "pointer"); ("zIndex", "9999"); ("backdropFilter", "blur(4px)") ].

Definition overlay_button (e : Element) : Element :=
  foldl (fun e kv => set_style kv.1 kv.2 e)
        (set_innerText "▶ Click to play video" e) overlay_style.

(** Lines 51-69. *)
Definition setup_overlay : M unit :=
  e <- createElement "button";;
  let e := overlay_button e in
  addEventListener TOverlay "click" FnTryPlay true false;;
  body <- document_body;;
  p <- appendChild body e;;
  modify (with_overlay (Some p)).

(** Lines 72-83: the two [let]s and the first call of [video.play()]. *)
Definition setup_autoplay : M unit :=
  modify (with_videoTexture None);;
  modify (with_materialSet false);;
  video_play Autoplay.

(** Lines 129-130. *)
Definition setup_resize : M unit :=
  addEventListener TWindow "resize" FnOnResize false true;;
  onResize.

(** Lines 133 and 151. *)
Definition setup_animation : M unit :=
  t <- performance_now;;
  modify (with_last (Some t));;
  requestAnimationFrame FnAnimate.

Definition threeCube : Global :=
  GObject [ ("video", RVideo); ("cube", RCube); ("renderer", RRenderer);
            ("scene", RScene); ("camera", RCamera) ].

(** Lines 154-170. *)
Definition setup_debug : M unit :=
  set_global "showVideoURL" (GFunction FnShowVideoURL);;
  set_global "__threeCube" threeCube;;
  console Info (String.append "cube.js loaded — video path: " VIDEO_SRC).

Definition main : M unit :=
  setup_container;;
  setup_renderer;;
  setup_scene;;
  setup_video;;
  setup_overlay;;
  setup_autoplay;;
  setup_resize;;
  setup_animation;;
  setup_debug.

(** *** The event loop *)

(** Run one task to its end; an exception nobody caught is reported and
    the page goes on. *)
Definition task (m : M unit) (w : World) : World :=
  match m w with
  | (w', inl e) => with_uncaught (uncaught w' ++ [e]) w'
  | (w', inr _) => w'
  end.

(** [promise.then(f).catch(h)] once the promise is settled. *)
Definition then_catch (f : M unit) (h : Js.error -> M unit) (o : Outcome) : M unit :=
  match o with
  | Resolved => try_catch f h
  | Rejected e => h e
  end.

Definition listener_eqb (a b : Listener) : bool :=
  same_listener a b && Bool.eqb (l_once a) (l_once b)
  && Bool.eqb (l_passive a) (l_passive b).

(** Dispatch of an event of type [ty] on [on]: the listeners registered at
    that moment are called in order; one that has been removed meanwhile is
    skipped, one registered with [once] is removed before it is called. *)
Definition invoke_listener (on : Target) (w : World) (l : Listener) : World :=
  if existsb (listener_eqb l) (listeners on w) then
    let w1 :=
      if l_once l
      then with_listeners on
             (filter (fun x => negb (listener_eqb l x) = true) (listeners on w)) w
      else w in
    task (call (l_fn l) 0) w1
  else w.

Definition dispatch (on : Target) (ty : string) (w : World) : World :=
  foldl (invoke_listener on) w
        (filter (fun l => String.eqb (l_type l) ty = true) (listeners on w)).

Inductive Event :=
| Settle (k : nat) (o : Outcome)   (* the k-th pending play() promise settles *)
| Click                            (* a click on the overlay button *)
| Resize (l : Layout)              (* the window is resized *)
| Frame (t : Q)                    (* an animation frame at time t *)
| Media (rs : Z)                   (* the video's readyState changes *)
| Console (name : string).         (* window[name]() typed in the console *)

Definition step (w : World) (e : Event) : World :=
  match e with
  | Settle k o =>
      match plays w !! k with
      | Some c => task (then_catch on_played (on_blocked c) o)
                       (with_plays (delete k (plays w)) w)
      | None => w
      end
  | Click => dispatch TOverlay "click" w
  | Resize l => dispatch TWindow "resize" (with_layout l w)
  | Frame t => foldl (fun w f => task (call f t) w) (with_frame_queue [] w) (frame_queue w)
  | Media rs =>
      match video w with
      | Some v => with_video (Some (vid_readyState rs v)) w
      | None => w
      end
  | Console name =>
      match window w !! name with
      | Some (GFunction f) => task (call f 0) w
      | _ => w
      end
  end.

(** Loading the page runs the script once. *)
Definition load (p : Page) : World := task main (boot p).

Definition run (p : Page) (evs : list Event) : World := foldl step (load p) evs.

(** *** Closed forms used to state what the script does *)

Definition click_listener : Listener :=
  {| l_type := "click"; l_fn := FnTryPlay; l_once := true; l_passive := false |}.

Definition resize_listener : Listener :=
  {| l_type := "resize"; l_fn := FnOnResize; l_once := false; l_passive := true |}.

(** What [main] does after the container is known to be at [c] and the body
    at [b]. *)
Definition rest : M unit :=
  setup_renderer;; setup_scene;; setup_video;; setup_overlay;; setup_autoplay;;
  setup_resize;; setup_animation;; setup_debug.

Definition setup_trace (c b : path) (r : Js.number) (w h : Z) : list Effect :=
  [ ENewRenderer; ESetPixelRatio r; EAppendChild c "canvas";
    ENewScene; ENewCamera; ENewGeometry; ENewMaterial false; ENewMesh; ESceneAdd;
    ECreateElement "video";
    ECreateElement "button"; EAddListener TOverlay "click" FnTryPlay;
    EAppendChild b "button";
    EPlay Autoplay;
    EAddListener TWindow "resize" FnOnResize; ESetSize w h; EUpdateProjection;
    ENow; ERequestFrame FnAnimate;
    ESetGlobal "showVideoURL"; ESetGlobal "__threeCube";
    EConsole Info "cube.js loaded — video path: images/hanterrace.mp4" ].

(** The world [rest] leaves behind when it starts in [w1]. *)
Definition loaded (w1 : World) (c b : path) : World :=
  let r := capped_pixel_ratio (devicePixelRatio w1) in
  let doc2 := alter_at (push_child (node "canvas")) c (document w1) in
  let doc3 := alter_at (push_child (overlay_button (node "button"))) b doc2 in
  let W := resize_width (layout w1) in
  let H := resize_height (layout w1) in
  {| three := three w1; document := doc3; devicePixelRatio := devicePixelRatio w1;
     layout := layout w1; now := now w1; origin := origin w1;
     resolve_url := resolve_url w1;
     window := <["__threeCube" := threeCube]>
                 (<["showVideoURL" := GFunction FnShowVideoURL]> (window w1));
     window_listeners := [resize_listener]; overlay_listeners := [click_listener];
     frame_queue := [FnAnimate]; plays := [Autoplay];
     trace := trace w1 ++ setup_trace c b r W H;
     uncaught := uncaught w1;
     container := Some c;
     renderer := Some {| pixelRatio := Some r; outputEncoding := Some "sRGBEncoding";
                         size := Some (W, H); domElement := node "canvas";
                         rendered := 0 |};
     scene := Some {| scene_children := [RCube] |};
     camera := Some {| fov := 50; aspect := Js.div_int W H; near := 1 # 10; far := 100;
                       position := (0, 0, 3)%Q; projection_updates := 1 |};
     cube := Some (new_Mesh (3 # 2, 3 # 2, 3 # 2)%Q (colored 2236962));
     video := Some video_element;
     overlay := Some (b ++ [child_count b doc2]);
     videoTexture := None; materialSet := false; last := Some (now w1) |}.

(** The world [setup_container] leaves behind when it has to create the
    container under the body at [b]. *)
Definition contained (w : World) (b : path) : World :=
  with_container (Some (b ++ [child_count b (document w)]))
    (with_document (alter_at (push_child (container_div (node "div"))) b (document w))
      (with_trace (trace w ++ [EGetElementById CONTAINER_ID false; ECreateElement "div";
                               EAppendChild b "div"]) w)).

(** The texture after [setupVideoTexture]. *)
Definition video_texture (lib : Lib) : Texture :=
  let t := tex_generateMipmaps false
             (tex_magFilter "LinearFilter"
               (tex_minFilter "LinearFilter" (new_VideoTexture lib))) in
  if has_colorSpace lib then tex_colorSpace "srgb" t else tex_encoding "sRGBEncoding" t.

Definition video_material : Material :=
  {| color := None; map := Some TheVideoTexture; mat_needsUpdate := true |}.

(** What the [.catch] callback of a call of [video.play()] writes. *)
Definition blocked_message (c : PlayCall) (err : Js.error) : Effect :=
  match c with
  | Autoplay => EConsole Info "Autoplay blocked — click to play the video."
  | Retry => EConsole Warn (String.append "Playback still blocked: " (error_text err))
  end.

(** The texture after a frame. *)
Definition refreshed (t : option Texture) (v : option Video) : option Texture :=
  match t, v with
  | Some x, Some y => if Z.leb 2 (readyState y) then Some (tex_needsUpdate true x) else t
  | _, _ => t
  end.

(** The overlay button as it stands in the document, and its
    [style.display]: [Some None] when the property is not set. *)
Definition overlay_element (w : World) : option Element :=
  match overlay w with
  | Some p => get_at p (document w)
  | None => None
  end.

Definition overlay_display (w : World) : option (option string) :=
  match overlay_element w with
  | Some e => Some (style e !! "display")
  | None => None
  end.

(** *** Reading traces *)

Fixpoint occurrences (P : Effect -> bool) (tr : list Effect) : nat :=
  match tr with
  | [] => 0
  | e :: tr' => ((if P e then 1 else 0) + occurrences P tr')%nat
  end.

(** The effects of [tr] selected by [ps], in that order, one after another. *)
Fixpoint in_order (ps : list (Effect -> bool)) (tr : list Effect) : bool :=
  match tr with
  | [] => match ps with [] => true | _ => false end
  | e :: tr' =>
      match ps with
      | [] => true
      | p :: ps' => if p e then in_order ps' tr' else in_order ps tr'
      end
  end.

Definition is_swap (e : Effect) : bool :=
  match e with ESetMaterial => true | _ => false end.

Definition is_retry (e : Effect) : bool :=
  match e with EPlay Retry => true | _ => false end.

Definition is_autoplay (e : Effect) : bool :=
  match e with EPlay Autoplay => true | _ => false end.

Definition is_locate (e : Effect) : bool :=
  match e with EGetElementById i _ => String.eqb i CONTAINER_ID | _ => false end.

Definition is_create (t : string) (e : Effect) : bool :=
  match e with ECreateElement t' => String.eqb t' t | _ => false end.

Definition is_new_renderer (e : Effect) : bool :=
  match e with ENewRenderer => true | _ => false end.

Definition is_new_scene (e : Effect) : bool :=
  match e with ENewScene => true | _ => false end.

Definition is_new_camera (e : Effect) : bool :=
  match e with ENewCamera => true | _ => false end.

Definition is_placeholder (e : Effect) : bool :=
  match e with ENewMaterial false => true | _ => false end.

Definition is_new_mesh (e : Effect) : bool :=
  match e with ENewMesh => true | _ => false end.

Definition is_resize_registration (e : Effect) : bool :=
  match e with EAddListener TWindow "resize" FnOnResize => true | _ => false end.

Definition is_request_frame (e : Effect) : bool :=
  match e with ERequestFrame FnAnimate => true | _ => false end.

Definition is_texture_touch (e : Effect) : bool :=
  match e with ENewVideoTexture => true | _ => false end.

Definition is_set_global (e : Effect) : bool :=
  match e with ESetGlobal _ => true | _ => false end.

Definition is_set_pixel_ratio (e : Effect) : bool :=
  match e with ESetPixelRatio _ => true | _ => false end.

(** What only the body of the script does: looking for the container,
    creating elements and library objects other than the video texture and
    its material, registering listeners, the first call of [play], setting
    globals. *)
Definition is_setup (e : Effect) : bool :=
  match e with
  | EGetElementById _ _ | ECreateElement _ | EAppendChild _ _ | ENewRenderer
  | ESetPixelRatio _ | ENewScene | ENewCamera | ENewGeometry | ENewMaterial false
  | ENewMesh | ESceneAdd | EAddListener _ _ _ | EPlay Autoplay | ENow
  | ESetGlobal _ => true
  | _ => false
  end.

(** Steps (a), (b) and (c) of the overview. *)
Definition steps_abc : list (Effect -> bool) :=
  [ is_locate;
    is_new_renderer; is_new_scene; is_new_camera; is_placeholder; is_new_mesh;
    is_create "video"; is_autoplay ].

(** The overview read as a sequence in time: (d) before (e) and (f). *)
Definition sequence_as_stated : list (Effect -> bool) :=
  steps_abc ++ [ is_swap; is_resize_registration; is_request_frame ].

(** What happens: (e) and (f) are part of the script's own run, (d) comes
    with a later event. *)
Definition sequence_as_run : list (Effect -> bool) :=
  steps_abc ++ [ is_resize_registration; is_request_frame; is_swap ].

Definition sequence_of_load : list (Effect -> bool) :=
  steps_abc ++ [ is_resize_registration; is_request_frame ].

(** *** What holds between two events once the script has run *)

Record Inv (w : World) : Prop := {
  inv_three : is_Some (three w);
  inv_container : is_Some (container w);
  inv_renderer : is_Some (renderer w);
  inv_scene : is_Some (scene w);
  inv_camera : is_Some (camera w);
  inv_video : is_Some (video w);
  inv_last : is_Some (last w);
  inv_overlay : exists p x, overlay w = Some p /\ get_at p (document w) = Some x;
  inv_cube : exists c, cube w = Some c /\
             material c = if materialSet w then video_material else colored 2236962;
  inv_texture : Js.defined (videoTexture w) = materialSet w;
  inv_swaps : occurrences is_swap (trace w) = if materialSet w then 1%nat else 0%nat;
  inv_window_listeners : window_listeners w = [resize_listener];
  inv_overlay_listeners :
    (overlay_listeners w = [click_listener] /\ occurrences is_retry (trace w) = 0%nat) \/
    (overlay_listeners w = [] /\ occurrences is_retry (trace w) = 1%nat);
  inv_frames : frame_queue w = [FnAnimate];
  inv_globals : forall k f, window w !! k = Some (GFunction f) -> f = FnShowVideoURL;
  inv_uncaught : uncaught w = []
}.

(** What a later world keeps of an earlier one, whatever happened between. *)
Record Stable (w w' : World) : Prop := {
  st_window : window w' = window w;
  st_origin : origin w' = origin w;
  st_container : container w' = container w;
  st_overlay : overlay w' = overlay w;
  st_src : src <$> video w' = src <$> video w;
  st_pixelRatio : pixelRatio <$> renderer w' = pixelRatio <$> renderer w;
  st_window_listeners : window_listeners w' = window_listeners w;
  st_ids : forall i, count_id i (document w') = count_id i (document w);
  st_trace : exists later, trace w' = trace w ++ later /\
               occurrences is_setup later = 0%nat
}.

(** The persistent state of the data model: the video element, the current
    material and texture, the flag and the time of the last frame. *)
Definition persistent (w : World) :
    option Video * option Material * option Texture * bool * option Q :=
  (video w, material <$> cube w, videoTexture w, materialSet w, last w).

Definition is_click (e : Event) : bool :=
  match e with Click => true | _ => false end.

(** The values a browser reports as [window.devicePixelRatio], and a
    property that is missing: [undefined], [NaN], or a number that is not
    negative. *)
Definition reported_ratio (v : Js.value) : bool :=
  match v with
  | Js.Undefined | Js.Num Js.NaN | Js.Num Js.PosInf => true
  | Js.Num Js.NegInf => false
  | Js.Num (Js.Fin q) => Qle_bool 0 q
  end.

(** The interval (0, 2]. *)
Definition in_0_2 (n : Js.number) : Prop :=
  match n with
  | Js.Fin q => (0 < q /\ q <= 2)%Q
  | _ => False
  end.

(** A failure is left alone by the script when the step in which it shows
    ends with a new uncaught error, or with the script having done nothing
    at all. *)
Definition left_alone (w w' : World) : Prop :=
  uncaught w' <> uncaught w \/ trace w' = trace w.

(** The reason a browser gives when its autoplay policy refuses [play()],
    and the one it gives when the source cannot be used: the file is missing,
    or no decoder takes it. *)
Definition autoplay_refusal : Js.error := Js.DOMException "NotAllowedError".

Definition unusable_source : Js.error := Js.DOMException "NotSupportedError".

(** The pages the script is written for: the library is loaded and the
    document has a body. *)
Definition supported (p : Page) : bool :=
  Js.defined (page_three p) && Js.defined (find_body (page_document p)).

(** *** Sample pages *)

Definition html (cs : list Element) : Element :=
  El "html" "" ∅ ∅ "" [El "head" "" ∅ ∅ "" []; El "body" "" ∅ ∅ "" cs].

Definition sample_layout : Layout :=
  {| clientWidth := 800; clientHeight := 600; innerWidth := 1024; innerHeight := 768 |}.

(** A page without a container, on a screen of pixel ratio 3. *)
Definition bare_page : Page :=
  {| page_three := Some {| has_colorSpace := true |}; page_document := html [];
     page_devicePixelRatio := Js.Num (Js.Fin 3); page_layout := sample_layout;
     page_now := 0; page_origin := "https://example.org";
     page_resolve := String.append "https://example.org/docs/"; page_window := ∅ |}.

(** A page that brings its own container. *)
Definition prepared_page : Page :=
  {| page_three := Some {| has_colorSpace := false |};
     page_document := html [El "div" "three-container" ∅ ∅ "" []];
     page_devicePixelRatio := Js.Undefined; page_layout := sample_layout;
     page_now := 5; page_origin := "https://example.org";
     page_resolve := String.append "https://example.org/docs/"; page_window := ∅ |}.

(** A page that forgot to load the library. *)
Definition broken_page : Page :=
  {| page_three := None; page_document := html [];
     page_devicePixelRatio := Js.Num (Js.Fin 1); page_layout := sample_layout;
     page_now := 0; page_origin := "https://example.org";
     page_resolve := String.append "https://example.org/docs/"; page_window := ∅ |}.

(** A page on which something has set the pixel ratio to -1. *)
Definition odd_page : Page :=
  {| page_three := Some {| has_colorSpace := true |}; page_document := html [];
     page_devicePixelRatio := Js.Num (Js.Fin (-1)); page_layout := sample_layout;
     page_now := 0; page_origin := "https://example.org";
     page_resolve := String.append "https://example.org/docs/"; page_window := ∅ |}.

(** *** Reading event sequences *)

Fixpoint count_events (P : Event -> bool) (evs : list Event) : nat :=
  match evs with
  | [] => 0
  | e :: evs' => ((if P e then 1 else 0) + count_events P evs')%nat
  end.

Definition is_frame (e : Event) : bool :=
  match e with Frame _ => true | _ => false end.

Definition is_resize (e : Event) : bool :=
  match e with Resize _ => true | _ => false end.

(** The time of the latest animation frame of [evs], [t0] when there is
    none. *)
Definition latest_frame (t0 : Q) (evs : list Event) : Q :=
  foldl (fun t e => match e with Frame t' => t' | _ => t end) t0 evs.

(** The sizes of the latest resize event of [evs], [l0] when there is none. *)
Definition latest_layout (l0 : Layout) (evs : list Event) : Layout :=
  foldl (fun l e => match e with Resize l' => l' | _ => l end) l0 evs.

Definition is_render (e : Effect) : bool :=
  match e with ERender => true | _ => false end.

Definition is_projection (e : Effect) : bool :=
  match e with EUpdateProjection => true | _ => false end.

Definition every_element (e : Element) : bool := true.

(** A layout as a browser reports it: no negative size. *)
Definition plausible (l : Layout) : Prop :=
  0 <= clientWidth l /\ 0 <= clientHeight l /\ 0 <= innerWidth l /\ 0 <= innerHeight l.

(** A page whose script runs from the head, before there is a body. *)
Definition headless_page : Page :=
  {| page_three := Some {| has_colorSpace := true |};
     page_document := El "html" "" ∅ ∅ "" [El "head" "" ∅ ∅ "" []];
     page_devicePixelRatio := Js.Num (Js.Fin 1); page_layout := sample_layout;
     page_now := 0; page_origin := "https://example.org";
     page_resolve := String.append "https://example.org/docs/"; page_window := ∅ |}.

End Cube.

(** * Facts about the document tree *)

Module DomFacts.

Import Dom.

(** *** Induction over trees *)

Lemma Element_ind' (P : Element -> Prop) :
  (forall t i s a tx cs, Forall P cs -> P (El t i s a tx cs)) ->
  forall e, P e.
Proof.
  intros H. fix IH 1. intros [t i s a tx cs]. apply H.
  induction cs as [|c cs IHcs]; constructor; [apply IH | exact IHcs].
Qed.

Lemma sum_over_app {A} (f : A -> nat) (l1 l2 : list A) :
  sum_over f (l1 ++ l2) = (sum_over f l1 + sum_over f l2)%nat.
Proof. induction l1 as [|x l1 IH]; simpl; [done | rewrite IH; lia]. Qed.

Lemma sum_over_insert {A} (f : A -> nat) (l : list A) k c c' :
  l !! k = Some c ->
  (sum_over f (<[k:=c']> l) + f c = sum_over f l + f c')%nat.
Proof.
  revert k. induction l as [|x l IH]; intros [|k] Hk; simpl in *; try done.
  - injection Hk as ->. lia.
  - specialize (IH _ Hk). lia.
Qed.

Lemma first_in_None {A} (f : A -> option path) cs k :
  first_in f cs k = None <-> Forall (fun c => f c = None) cs.
Proof.
  revert k. induction cs as [|c cs IH]; intros k; simpl.
  - split; [constructor | done].
  - destruct (f c) eqn:E.
    + split; [done | intros HF; inversion HF; congruence].
    + rewrite IH. split; [by constructor | by inversion 1].
Qed.

Lemma first_in_Some {A} (f : A -> option path) cs k p :
  first_in f cs k = Some p ->
  exists j c q, p = (k + j)%nat :: q /\ cs !! j = Some c /\ f c = Some q.
Proof.
  revert k. induction cs as [|c cs IH]; intros k; simpl; [done |].
  destruct (f c) eqn:E.
  - intros [= <-]. exists 0%nat, c, p0. rewrite Nat.add_0_r. done.
  - intros H. destruct (IH _ H) as (j & c' & q & -> & Hj & Hq).
    exists (S j), c', q. split_and!; [f_equal; lia | done | done].
Qed.

Lemma sum_over_zero {A} (f : A -> nat) (l : list A) :
  sum_over f l = 0%nat <-> Forall (fun c => f c = 0%nat) l.
Proof.
  induction l as [|x l IH]; simpl.
  - split; [constructor | done].
  - split.
    + intros H. constructor; [lia | apply IH; lia].
    + inversion 1; subst. apply IH in H3. lia.
Qed.

(** *** Looking up by id *)

Lemma find_id_None i e : find_id i e = None <-> count_id i e = 0%nat.
Proof.
  induction e as [t i' s a tx cs IH] using Element_ind'.
  unfold count_id in *. simpl. unfold has_id at 1. simpl.
  destruct (String.eqb i' i).
  - split; [done | lia].
  - rewrite first_in_None. simpl. rewrite sum_over_zero.
    rewrite !Forall_forall in *. split; intros H x Hx; apply (IH x Hx), H, Hx.
Qed.

Lemma find_id_Some i e p :
  find_id i e = Some p -> exists x, get_at p e = Some x /\ eid x = i.
Proof.
  revert p. induction e as [t i' s a tx cs IH] using Element_ind'. intros p. simpl.
  destruct (String.eqb i' i) eqn:E.
  - intros [= <-]. eexists; split; [done |]. simpl. by apply String.eqb_eq.
  - intros H. apply first_in_Some in H as (j & c & q & -> & Hj & Hq).
    simpl. rewrite Hj. rewrite Forall_forall in IH.
    apply (IH c); [|done]. by eapply list_elem_of_lookup_2.
Qed.

Lemma find_id_count i e p : find_id i e = Some p -> (1 <= count_id i e)%nat.
Proof.
  intros H. destruct (count_id i e) eqn:E; [|lia].
  apply find_id_None in E. congruence.
Qed.

(** *** Updates that keep a node in place

    Appending a child or setting a style property keeps the tag and the id
    of a node and only extends its children. *)

Definition grows (f : Element -> Element) : Prop :=
  forall e, tag (f e) = tag e /\ eid (f e) = eid e /\
            exists extra, children (f e) = children e ++ extra.

Lemma grows_push_child c : grows (push_child c).
Proof. intros e. split_and!; [done | done | by exists [c]]. Qed.

Lemma grows_set_style k v : grows (set_style k v).
Proof. intros e. split_and!; [done | done | exists []; simpl; by rewrite app_nil_r]. Qed.

Lemma alter_at_tag f p e : (forall x, tag (f x) = tag x) -> tag (alter_at f p e) = tag e.
Proof. intros Hf. destruct p as [|k p]; simpl; [done |]. by destruct (children e !! k). Qed.

Lemma alter_at_eid f p e : (forall x, eid (f x) = eid x) -> eid (alter_at f p e) = eid e.
Proof. intros Hf. destruct p as [|k p]; simpl; [done |]. by destruct (children e !! k). Qed.

Lemma first_in_app_Some {A} (f : A -> option path) l1 l2 k p :
  first_in f l1 k = Some p -> first_in f (l1 ++ l2) k = Some p.
Proof.
  revert k. induction l1 as [|x l1 IH]; intros k; simpl; [done |].
  destruct (f x); [done | apply IH].
Qed.

Lemma first_in_insert {A} (f : A -> option path) l j x y k :
  l !! j = Some x -> f y = f x -> first_in f (<[j:=y]> l) k = first_in f l k.
Proof.
  revert j k. induction l as [|z l IH]; intros [|j] k Hj Hf; simpl in *; try done.
  - injection Hj as ->. by rewrite Hf.
  - destruct (f z); [done | by apply IH].
Qed.

(** [document.body] stays where it is. *)
Lemma find_body_alter_at f p doc b :
  grows f -> find_body doc = Some b -> find_body (alter_at f p doc) = Some b.
Proof.
  intros Hf Hb. unfold find_body in *. destruct p as [|k p]; simpl.
  - destruct (Hf doc) as (_ & _ & extra & ->). by apply first_in_app_Some.
  - destruct (children doc !! k) eqn:E; [|done]. simpl.
    erewrite first_in_insert; [done | done |].
    unfold has_tag. rewrite alter_at_tag; [done |]. intros x. apply Hf.
Qed.

Lemma find_body_shape doc b :
  find_body doc = Some b ->
  exists k e, b = [k] /\ get_at b doc = Some e /\ tag e = "body".
Proof.
  unfold find_body. intros H.
  apply first_in_Some in H as (j & c & q & -> & Hj & Hq). simpl in *.
  destruct (has_tag "body" c) eqn:E; [|done]. injection Hq as <-.
  exists j, c. rewrite Hj. split_and!; [done | done |].
  by apply String.eqb_eq.
Qed.

(** *** Reading after an update *)

Lemma get_at_alter_at f p e x :
  get_at p e = Some x -> get_at p (alter_at f p e) = Some (f x).
Proof.
  revert e. induction p as [|k p IH]; intros e; simpl.
  - by intros [= ->].
  - destruct (children e !! k) eqn:E; [|done]. intros H. simpl.
    rewrite list_lookup_insert_eq; [by apply IH |]. by eapply lookup_lt_Some.
Qed.

Lemma get_at_app p q e x :
  get_at p e = Some x -> get_at (p ++ q) e = get_at q x.
Proof.
  revert e. induction p as [|k p IH]; intros e; simpl.
  - by intros [= ->].
  - destruct (children e !! k); [apply IH | done].
Qed.

Lemma alter_at_dangling f p e : get_at p e = None -> alter_at f p e = e.
Proof.
  revert e. induction p as [|k p IH]; intros e; simpl; [done |].
  destruct (children e !! k) as [c|] eqn:E; [|done]. intros H.
  rewrite (IH _ H), list_insert_id by done. by destruct e.
Qed.

(** The child appended to the node at [p] is its last child. *)
Lemma get_at_appended c p e :
  is_Some (get_at p e) ->
  get_at (p ++ [child_count p e]) (alter_at (push_child c) p e) = Some c.
Proof.
  intros [x Hx]. unfold child_count. rewrite Hx.
  erewrite get_at_app; [|by apply get_at_alter_at].
  simpl. rewrite lookup_app_r; [|done]. by rewrite Nat.sub_diag.
Qed.

(** *** Counting after an update *)

Definition shallow (P : Element -> bool) : Prop :=
  forall cs e, P (set_children cs e) = P e.

Lemma shallow_has_id i : shallow (has_id i).
Proof. done. Qed.

Lemma shallow_has_tag t : shallow (has_tag t).
Proof. done. Qed.

Lemma count_set_children P cs e :
  shallow P ->
  count P (set_children cs e) = ((if P e then 1 else 0) + sum_over (count P) cs)%nat.
Proof. intros HP. unfold set_children at 1. simpl. fold (set_children cs e). by rewrite HP. Qed.

Lemma count_unfold P e :
  count P e = ((if P e then 1 else 0) + sum_over (count P) (children e))%nat.
Proof. by destruct e. Qed.

Lemma count_alter_at P f p e x :
  shallow P -> get_at p e = Some x ->
  (count P (alter_at f p e) + count P x = count P e + count P (f x))%nat.
Proof.
  intros HP. revert e. induction p as [|k p IH]; intros e; simpl.
  - intros [= ->]. lia.
  - destruct (children e !! k) as [c|] eqn:E; [|done]. intros H.
    rewrite count_set_children by done. rewrite (count_unfold P e).
    pose proof (sum_over_insert (count P) _ _ _ (alter_at f p c) E).
    specialize (IH _ H). lia.
Qed.

Lemma count_push_child P c e :
  shallow P -> count P (push_child c e) = (count P e + count P c)%nat.
Proof.
  intros HP. unfold push_child. rewrite count_set_children by done.
  rewrite (count_unfold P e), sum_over_app. simpl. lia.
Qed.

(** Appending [c] somewhere in the tree adds the nodes of [c]. *)
Lemma count_appended P c p e :
  shallow P -> is_Some (get_at p e) ->
  count P (alter_at (push_child c) p e) = (count P e + count P c)%nat.
Proof.
  intros HP [x Hx].
  pose proof (count_alter_at P (push_child c) p e x HP Hx) as H.
  rewrite count_push_child in H by done. lia.
Qed.

Lemma count_id_set_style i k v p e :
  count_id i (alter_at (set_style k v) p e) = count_id i e.
Proof.
  unfold count_id. destruct (get_at p e) as [x|] eqn:Hx.
  - pose proof (count_alter_at (has_id i) (set_style k v) p e x (shallow_has_id i) Hx) as H.
    assert (count (has_id i) (set_style k v x) = count (has_id i) x) as Hs
      by (by destruct x).
    lia.
  - by rewrite alter_at_dangling.
Qed.

(** A node of the tree is still there, with its tag and id, after the tree
    has grown somewhere. *)
Lemma get_at_grows f p q e x :
  grows f -> get_at q e = Some x ->
  exists x', get_at q (alter_at f p e) = Some x' /\ tag x' = tag x /\ eid x' = eid x.
Proof.
  intros Hf. revert p e. induction q as [|j q IH]; intros p e; simpl.
  - intros [= ->]. eexists. split; [done |].
    split; [apply alter_at_tag | apply alter_at_eid]; intros y; apply Hf.
  - destruct (children e !! j) as [cj|] eqn:Ej; [|done]. intros Hx.
    destruct p as [|k p]; simpl.
    + destruct (Hf e) as (_ & _ & extra & ->).
      rewrite lookup_app_l by (by eapply lookup_lt_Some). rewrite Ej. by exists x.
    + destruct (children e !! k) as [ck|] eqn:Ek; simpl.
      * destruct (decide (k = j)) as [->|Hne].
        -- rewrite list_lookup_insert_eq by (by eapply lookup_lt_Some).
           assert (ck = cj) by congruence; subst. by apply IH.
        -- rewrite list_lookup_insert_ne by done. rewrite Ej. by exists x.
      * rewrite Ej. by exists x.
Qed.

End DomFacts.

(** * Facts about the script *)

Module CubeFacts.

Import Dom Three Browser Cube DomFacts.

(** ** Running script code symbolically *)

Ltac unfold_m :=
  cbv [bind ret throw get modify emit binding try_catch console THREE
       getElementById createElement document_body appendChild addEventListener
       video_play requestAnimationFrame performance_now set_global
       on_videoTexture on_cube on_camera on_renderer listeners with_listeners
       with_document with_layout with_window with_window_listeners
       with_overlay_listeners with_frame_queue with_plays with_trace with_uncaught
       with_container with_renderer with_scene with_camera with_cube with_video
       with_overlay with_videoTexture with_materialSet with_last
       three document devicePixelRatio layout now origin resolve_url window
       window_listeners
       overlay_listeners frame_queue plays trace uncaught container renderer scene
       camera cube video overlay videoTexture materialSet last Js.defined].

Ltac run_m :=
  repeat (progress (unfold_m;
    cbn [existsb app tag node domElement rd_outputEncoding rd_pixelRatio rd_size
         rd_render new_WebGLRenderer scene_children colorSpace new_VideoTexture
         tex_minFilter tex_magFilter tex_generateMipmaps tex_colorSpace tex_encoding
         tex_needsUpdate readyState]));
  rewrite <- ?app_assoc; cbn [app].

Lemma bind_ok {A B} (m : M A) (k : A -> M B) w w' a :
  m w = (w', inr a) -> bind m k w = k a w'.
Proof. intros H. unfold bind. by rewrite H. Qed.

Lemma bind_throws {A B} (m : M A) (k : A -> M B) w w' e :
  m w = (w', inl e) -> bind m k w = (w', inl e).
Proof. intros H. unfold bind. by rewrite H. Qed.

(** ** The phases of [main] *)

Lemma setup_container_found w c :
  find_id CONTAINER_ID (document w) = Some c ->
  setup_container w =
    (with_container (Some c)
       (with_trace (trace w ++ [EGetElementById CONTAINER_ID true]) w), inr tt).
Proof.
  intros Hc. destruct w; simpl in *. unfold setup_container. run_m.
  rewrite Hc. by run_m.
Qed.

Lemma setup_container_created w b :
  find_id CONTAINER_ID (document w) = None ->
  find_body (document w) = Some b ->
  setup_container w = (contained w b, inr tt).
Proof.
  intros Hc Hb. destruct w; simpl in *. unfold setup_container, contained. run_m.
  rewrite Hc. run_m. rewrite Hb. by run_m.
Qed.

Lemma setup_container_no_body w :
  find_id CONTAINER_ID (document w) = None ->
  find_body (document w) = None ->
  setup_container w =
    (with_trace (trace w ++ [EGetElementById CONTAINER_ID false; ECreateElement "div"]) w,
     inl (Js.TypeError "document.body is null")).
Proof.
  intros Hc Hb. destruct w; simpl in *. unfold setup_container. run_m.
  rewrite Hc. run_m. rewrite Hb. by run_m.
Qed.

Lemma rest_ok w1 lib c b :
  three w1 = Some lib -> container w1 = Some c ->
  find_body (document w1) = Some b ->
  window_listeners w1 = [] -> overlay_listeners w1 = [] ->
  frame_queue w1 = [] -> plays w1 = [] ->
  rest w1 = (loaded w1 c b, inr tt).
Proof.
  intros H3 Hc Hb Hwl Hol Hfq Hpl.
  pose proof (find_body_alter_at _ c _ _ (grows_push_child (node "canvas")) Hb) as Hb2.
  destruct w1; simpl in *; subst.
  unfold rest, setup_renderer, setup_scene, setup_video, setup_overlay,
    setup_autoplay, setup_resize, setup_animation, setup_debug, onResize, loaded.
  repeat (progress (run_m; rewrite ?Hb2)).
  reflexivity.
Qed.

Lemma rest_no_three w1 :
  three w1 = None -> rest w1 = (w1, inl (Js.ReferenceError "THREE")).
Proof.
  intros H3. destruct w1; simpl in *; subst.
  unfold rest, setup_renderer. by run_m.
Qed.

Lemma load_found p lib c b :
  page_three p = Some lib ->
  find_id CONTAINER_ID (page_document p) = Some c ->
  find_body (page_document p) = Some b ->
  load p = loaded (with_container (Some c)
                     (with_trace [EGetElementById CONTAINER_ID true] (boot p))) c b.
Proof.
  intros H3 Hc Hb. unfold load, task.
  change main with (bind setup_container (fun _ => rest)).
  erewrite bind_ok by (by apply setup_container_found).
  by erewrite rest_ok.
Qed.

Lemma load_created p lib b :
  page_three p = Some lib ->
  find_id CONTAINER_ID (page_document p) = None ->
  find_body (page_document p) = Some b ->
  load p = loaded (contained (boot p) b)
                  (b ++ [child_count b (page_document p)]) b.
Proof.
  intros H3 Hc Hb. unfold load, task.
  change main with (bind setup_container (fun _ => rest)).
  erewrite bind_ok by (by apply setup_container_created).
  erewrite rest_ok; try done.
  simpl. apply find_body_alter_at; [apply grows_push_child | done].
Qed.

Lemma load_no_three p :
  page_three p = None ->
  is_Some (find_body (page_document p)) ->
  exists w1, load p = with_uncaught [Js.ReferenceError "THREE"] w1 /\
    three w1 = None /\ window w1 = GHost <$> page_window p /\
    window_listeners w1 = [] /\ overlay_listeners w1 = [] /\
    frame_queue w1 = [] /\ plays w1 = [] /\ renderer w1 = None /\ video w1 = None /\
    overlay w1 = None /\
    occurrences is_swap (trace w1) = 0%nat.
Proof.
  intros H3 [b Hb]. unfold load, task.
  change main with (bind setup_container (fun _ => rest)).
  destruct (find_id CONTAINER_ID (page_document p)) as [c|] eqn:Hc.
  - erewrite bind_ok by (by apply setup_container_found).
    rewrite rest_no_three by done. eexists. split; [reflexivity |]. by simpl.
  - erewrite bind_ok by (by apply setup_container_created).
    rewrite rest_no_three by done. eexists. split; [reflexivity |]. by simpl.
Qed.

(** ** The callbacks *)

Lemma setupVideoTexture_again w :
  materialSet w = true -> setupVideoTexture w = (w, inr tt).
Proof. intros H. unfold setupVideoTexture, bind, get. by rewrite H. Qed.

Lemma setupVideoTexture_first w lib v c :
  materialSet w = false -> three w = Some lib -> video w = Some v -> cube w = Some c ->
  setupVideoTexture w =
    (with_trace (trace w ++ [ENewVideoTexture; ENewMaterial true; ESetMaterial;
                             EConsole Info "Video texture applied to cube."])
       (with_materialSet true
          (with_cube (Some (mesh_material video_material c))
             (with_videoTexture (Some (video_texture lib)) w))), inr tt).
Proof.
  intros Hm H3 Hv Hc. destruct w; simpl in *; subst.
  unfold setupVideoTexture, video_texture. run_m.
  destruct (has_colorSpace lib); by run_m.
Qed.

Lemma hideOverlay_ok w p :
  overlay w = Some p ->
  hideOverlay w =
    (with_document (alter_at (set_style "display" "none") p (document w)) w, inr tt).
Proof. intros H. destruct w; simpl in *; subst. unfold hideOverlay. by run_m. Qed.

Lemma tryPlay_ok w v :
  video w = Some v ->
  tryPlay w = (with_plays (plays w ++ [Retry]) (with_trace (trace w ++ [EPlay Retry]) w),
               inr tt).
Proof. intros H. destruct w; simpl in *; subst. unfold tryPlay. by run_m. Qed.

Lemma onResize_ok w c r cam :
  container w = Some c -> renderer w = Some r -> camera w = Some cam ->
  onResize w =
    (let W := resize_width (layout w) in
     let H := resize_height (layout w) in
     with_camera (Some (cam_updateProjectionMatrix (cam_aspect (Js.div_int W H) cam)))
       (with_renderer (Some (rd_size W H r))
          (with_trace (trace w ++ [ESetSize W H; EUpdateProjection]) w)), inr tt).
Proof.
  intros Hc Hr Hcam. destruct w; simpl in *; subst. unfold onResize. by run_m.
Qed.

Lemma animate_ok t w l c v r s cam :
  last w = Some l -> cube w = Some c -> video w = Some v -> renderer w = Some r ->
  scene w = Some s -> camera w = Some cam ->
  animate t w =
    (let dt := ((t - l) / 1000)%Q in
     with_renderer (Some (rd_render r))
       (with_videoTexture (refreshed (videoTexture w) (video w))
          (with_cube (Some (mesh_rotate_y (dt * (6 # 10))
                              (mesh_rotate_x (dt * (35 # 100)) c)))
             (with_last (Some t)
                (with_frame_queue (frame_queue w ++ [FnAnimate])
                   (with_trace (trace w ++ [ERequestFrame FnAnimate; ERender]) w))))),
     inr tt).
Proof.
  intros Hl Hc Hv Hr Hs Hcam. destruct w; simpl in *; subst. unfold animate, refreshed.
  run_m. destruct videoTexture0 as [x|]; run_m; [|done].
  destruct (Z.leb 2 (readyState v)); by run_m.
Qed.

Lemma showVideoURL_ok w v :
  video w = Some v ->
  showVideoURL w =
    (with_trace
       (trace w ++
        [EConsole Log (String.append "Video src: " (video_src w v));
         EConsole Log "Attempt to open this URL in a new tab to confirm it's reachable:";
         EConsole Log (String.append (origin w) (String.append "/" (strip_slash VIDEO_SRC)))])
       w, inr tt).
Proof. intros H. destruct w; simpl in *; subst. unfold showVideoURL. by run_m. Qed.

(** ** The invariant *)

Lemma occurrences_app P l1 l2 :
  occurrences P (l1 ++ l2) = (occurrences P l1 + occurrences P l2)%nat.
Proof. induction l1 as [|e l1 IH]; simpl; [done | rewrite IH; lia]. Qed.

Lemma find_body_valid doc b : find_body doc = Some b -> is_Some (get_at b doc).
Proof. intros H. apply find_body_shape in H as (k & e & _ & -> & _). by eexists. Qed.

Lemma loaded_inv w1 c b :
  is_Some (three w1) ->
  find_body (document w1) = Some b ->
  uncaught w1 = [] ->
  occurrences is_swap (trace w1) = 0%nat ->
  occurrences is_retry (trace w1) = 0%nat ->
  (forall k f, window w1 !! k = Some (GFunction f) -> f = FnShowVideoURL) ->
  Inv (loaded w1 c b).
Proof.
  intros H3 Hb Hu Hs Hr Hg. constructor; simpl; eauto.
  - eexists _, _. split; [done |]. apply get_at_appended, find_body_valid.
    apply find_body_alter_at; [apply grows_push_child | done].
  - rewrite occurrences_app, Hs. reflexivity.
  - left. rewrite occurrences_app, Hr. split; reflexivity.
  - intros k f. rewrite !lookup_insert. repeat case_decide; naive_solver.
Qed.

Lemma supported_spec p :
  supported p = true ->
  exists lib b, page_three p = Some lib /\ find_body (page_document p) = Some b.
Proof.
  unfold supported. intros H. apply andb_prop in H as [H1 H2].
  destruct (page_three p) as [lib|]; [|done].
  destruct (find_body (page_document p)) as [b|]; [|done]. by exists lib, b.
Qed.

Lemma load_inv p : supported p = true -> Inv (load p).
Proof.
  intros Hp. destruct (supported_spec p Hp) as (lib & b & H3 & Hb).
  assert (forall k f, (GHost <$> page_window p) !! k = Some (GFunction f) ->
                      f = FnShowVideoURL) as Hg.
  { intros k f. rewrite lookup_fmap. by destruct (page_window p !! k). }
  destruct (find_id CONTAINER_ID (page_document p)) as [c|] eqn:Hc.
  - erewrite load_found by done. apply loaded_inv; simpl; by rewrite ?H3.
  - erewrite load_created by done. apply loaded_inv; simpl; rewrite ?H3; try done.
    apply find_body_alter_at; [apply grows_push_child | done].
Qed.

(** ** One event at a time *)

Lemma task_ok m w w' : m w = (w', inr tt) -> task m w = w'.
Proof. intros H. unfold task. by rewrite H. Qed.

Lemma settle_none w k o : plays w !! k = None -> step w (Settle k o) = w.
Proof. intros H. simpl. by rewrite H. Qed.

Lemma settle_rejected w k c e :
  plays w !! k = Some c ->
  step w (Settle k (Rejected e)) =
    with_trace (trace w ++ [blocked_message c e]) (with_plays (delete k (plays w)) w).
Proof. intros H. simpl. rewrite H. by destruct c. Qed.

Lemma settle_resolved_first w k c lib v cu p :
  plays w !! k = Some c ->
  materialSet w = false -> three w = Some lib -> video w = Some v ->
  cube w = Some cu -> overlay w = Some p ->
  step w (Settle k Resolved) =
    with_document (alter_at (set_style "display" "none") p (document w))
      (with_trace (trace w ++ [ENewVideoTexture; ENewMaterial true; ESetMaterial;
                               EConsole Info "Video texture applied to cube."])
         (with_materialSet true
            (with_cube (Some (mesh_material video_material cu))
               (with_videoTexture (Some (video_texture lib))
                  (with_plays (delete k (plays w)) w))))).
Proof.
  intros Hk Hm H3 Hv Hc Ho. simpl. rewrite Hk.
  apply task_ok. unfold try_catch, on_played.
  erewrite bind_ok by (by eapply setupVideoTexture_first).
  by erewrite hideOverlay_ok.
Qed.

Lemma settle_resolved_again w k c p :
  plays w !! k = Some c -> materialSet w = true -> overlay w = Some p ->
  step w (Settle k Resolved) =
    with_document (alter_at (set_style "display" "none") p (document w))
      (with_plays (delete k (plays w)) w).
Proof.
  intros Hk Hm Ho. simpl. rewrite Hk.
  apply task_ok. unfold try_catch, on_played.
  erewrite bind_ok by (by eapply setupVideoTexture_again).
  by erewrite hideOverlay_ok.
Qed.

Lemma click_first w v :
  overlay_listeners w = [click_listener] -> video w = Some v ->
  step w Click =
    with_plays (plays w ++ [Retry])
      (with_trace (trace w ++ [EPlay Retry]) (with_overlay_listeners [] w)).
Proof.
  intros Hl Hv. simpl. unfold dispatch. simpl. rewrite Hl. simpl.
  unfold invoke_listener. simpl. rewrite Hl. simpl.
  apply task_ok. by erewrite tryPlay_ok.
Qed.

Lemma click_again w : overlay_listeners w = [] -> step w Click = w.
Proof. intros Hl. simpl. unfold dispatch. simpl. by rewrite Hl. Qed.

Lemma resize_ok w l c r cam :
  window_listeners w = [resize_listener] ->
  container w = Some c -> renderer w = Some r -> camera w = Some cam ->
  step w (Resize l) =
    (let W := resize_width l in
     let H := resize_height l in
     with_camera (Some (cam_updateProjectionMatrix (cam_aspect (Js.div_int W H) cam)))
       (with_renderer (Some (rd_size W H r))
          (with_trace (trace w ++ [ESetSize W H; EUpdateProjection])
             (with_layout l w)))).
Proof.
  intros Hl Hc Hr Hcam. simpl. unfold dispatch. simpl. rewrite Hl. simpl.
  unfold invoke_listener. simpl. rewrite Hl. simpl.
  apply task_ok. by erewrite onResize_ok.
Qed.

Lemma console_showVideoURL w name v :
  window w !! name = Some (GFunction FnShowVideoURL) -> video w = Some v ->
  step w (Console name) =
    with_trace
      (trace w ++
       [EConsole Log (String.append "Video src: " (video_src w v));
        EConsole Log "Attempt to open this URL in a new tab to confirm it's reachable:";
        EConsole Log (String.append (origin w) (String.append "/" (strip_slash VIDEO_SRC)))])
      w.
Proof.
  intros Hn Hv. simpl. rewrite Hn. apply task_ok. by erewrite showVideoURL_ok.
Qed.

Lemma defined_refreshed t v : Js.defined (refreshed t v) = Js.defined t.
Proof.
  destruct t as [x|], v as [y|]; simpl; try done. by destruct (Z.leb 2 (readyState y)).
Qed.

(** ** The invariant is kept *)

Ltac open_inv H :=
  destruct H as [[lib0 H3] [ct0 Hct] [rd0 Hrd] [sc0 Hsc] [cam0 Hcam] [vid0 Hv]
                 [last0 Hl] (ov0 & ovx0 & Hov & Hox) (cu0 & Hcu & Hmat)
                 Htx Hsw Hwl Hol Hfr Hgl Hun].

Lemma frame_ok t w l c v r s cam :
  frame_queue w = [FnAnimate] ->
  last w = Some l -> cube w = Some c -> video w = Some v -> renderer w = Some r ->
  scene w = Some s -> camera w = Some cam ->
  step w (Frame t) =
    (let dt := ((t - l) / 1000)%Q in
     with_renderer (Some (rd_render r))
       (with_videoTexture (refreshed (videoTexture w) (video w))
          (with_cube (Some (mesh_rotate_y (dt * (6 # 10))
                              (mesh_rotate_x (dt * (35 # 100)) c)))
             (with_last (Some t)
                (with_frame_queue [FnAnimate]
                   (with_trace (trace w ++ [ERequestFrame FnAnimate; ERender]) w)))))).
Proof.
  intros Hq Hl Hc Hv Hr Hs Hcam. simpl. rewrite Hq. simpl.
  apply task_ok. by erewrite animate_ok.
Qed.

(** Case analysis on an event in a world where the invariant holds: the
    step is replaced by its closed form. *)
Ltac step_cases w e HI :=
  let HI' := fresh "HI" in
  pose proof HI as HI'; open_inv HI;
  destruct e as [k [|err] | | l0 | t | rs | name];
  [ destruct (plays w !! k) as [pc|] eqn:Hk;
    [ destruct (materialSet w) eqn:Hm;
      [ erewrite settle_resolved_again by done
      | erewrite settle_resolved_first by done ]
    | rewrite settle_none by done ]
  | destruct (plays w !! k) as [pc|] eqn:Hk;
    [ erewrite settle_rejected by done | rewrite settle_none by done ]
  | match goal with
    | H : _ \/ _ |- _ => destruct H as [[Hol Hre] | [Hol Hre]]
    end;
    [ erewrite click_first by done | rewrite click_again by done ]
  | erewrite resize_ok by done
  | erewrite frame_ok by done
  | cbn [step];
    match goal with H : video w = Some _ |- _ => rewrite H end
  | destruct (window w !! name) as [[f | fields | what]|] eqn:Hn;
    [ match goal with
      | H : forall k f, window w !! k = Some (GFunction f) -> _ |- _ =>
          pose proof (H _ _ Hn) as ->
      end;
      erewrite console_showVideoURL by done
    | cbn [step]; rewrite Hn
    | cbn [step]; rewrite Hn
    | cbn [step]; rewrite Hn ] ].

Ltac count_trace :=
  rewrite ?occurrences_app; cbn [occurrences is_swap is_retry blocked_message];
  rewrite ?Nat.add_0_r.

Theorem step_inv w e : Inv w -> Inv (step w e).
Proof.
  intros HI. step_cases w e HI; try done.
  all: constructor; cbn; rewrite ?Hm; eauto.
  all: try (eexists _, _; split; [done |]; by apply get_at_alter_at).
  all: try by rewrite defined_refreshed.
  all: try (left; split; [done |]).
  all: try (right; split; [done |]).
  all: count_trace; rewrite ?Hsw, ?Hre, ?Hm; try done.
  all: destruct pc; try done.
  all: count_trace; assumption.
Qed.

Lemma steps_inv w evs : Inv w -> Inv (foldl step w evs).
Proof.
  revert w. induction evs as [|e evs IH]; intros w HI; simpl; [done |].
  by apply IH, step_inv.
Qed.

Lemma run_inv p evs : supported p = true -> Inv (run p evs).
Proof. intros Hp. by apply steps_inv, load_inv. Qed.

Lemma run_snoc p evs e : run p (evs ++ [e]) = step (run p evs) e.
Proof. unfold run. by rewrite foldl_app. Qed.

(** ** What no event changes *)

Lemma stable_refl w : Stable w w.
Proof. constructor; try done. exists []. by rewrite app_nil_r. Qed.

Lemma stable_trans w1 w2 w3 : Stable w1 w2 -> Stable w2 w3 -> Stable w1 w3.
Proof.
  intros [? ? ? ? ? ? ? Hi1 (l1 & Ht1 & Hs1)] [? ? ? ? ? ? ? Hi2 (l2 & Ht2 & Hs2)].
  constructor; try congruence.
  exists (l1 ++ l2). rewrite Ht2, Ht1, <- app_assoc. split; [done |].
  rewrite occurrences_app. lia.
Qed.

Lemma step_stable w e : Inv w -> Stable w (step w e).
Proof.
  intros HI. step_cases w e HI; try apply stable_refl.
  all: constructor; cbn; rewrite ?Hv, ?Hrd; try done.
  all: try (intros i; apply count_id_set_style).
  all: try (eexists; split; [reflexivity | by try destruct pc]).
  all: exists []; by rewrite app_nil_r.
Qed.

Lemma steps_stable w evs : Inv w -> Stable w (foldl step w evs).
Proof.
  revert w. induction evs as [|e evs IH]; intros w HI; simpl; [apply stable_refl |].
  eapply stable_trans; [by apply step_stable | by apply IH, step_inv].
Qed.

Lemma run_stable p evs : supported p = true -> Stable (load p) (run p evs).
Proof. intros Hp. by apply steps_stable, load_inv. Qed.

(** The world right after loading, as far as the properties below need it. *)
Lemma load_facts p :
  supported p = true ->
  exists w1 c b,
    load p = loaded w1 c b /\ find_body (document w1) = Some b /\
    is_Some (get_at c (document w1)) /\
    window w1 = GHost <$> page_window p /\
    devicePixelRatio w1 = page_devicePixelRatio p /\
    layout w1 = page_layout p /\ now w1 = page_now p /\
    origin w1 = page_origin p /\
    in_order [is_locate] (trace w1) = true /\
    occurrences is_swap (trace w1) = 0%nat /\
    occurrences is_retry (trace w1) = 0%nat /\
    occurrences is_set_global (trace w1) = 0%nat /\
    occurrences is_set_pixel_ratio (trace w1) = 0%nat /\
    count_tag "video" (document w1) = count_tag "video" (page_document p).
Proof.
  intros Hp. destruct (supported_spec p Hp) as (lib & b & H3 & Hb).
  destruct (find_id CONTAINER_ID (page_document p)) as [c|] eqn:Hc.
  - eexists _, c, b. split; [by eapply load_found |].
    split_and!; try done. simpl.
    apply find_id_Some in Hc as (e & -> & _). by eexists.
  - eexists _, _, b. split; [by eapply load_created |].
    split_and!; try done; simpl.
    + apply find_body_alter_at; [apply grows_push_child | done].
    + apply mk_is_Some with (container_div (node "div")).
      apply get_at_appended. by apply find_body_valid.
    + unfold count_tag. rewrite count_appended;
        [| apply shallow_has_tag | by apply find_body_valid].
      unfold count at 2. simpl. lia.
Qed.

Lemma occurrences_none (P Q : Effect -> bool) l :
  (forall e, P e = true -> Q e = true) ->
  occurrences Q l = 0%nat -> occurrences P l = 0%nat.
Proof.
  intros HPQ. induction l as [|e l IH]; simpl; [done |].
  destruct (Q e) eqn:HQ; [lia |]. intros H.
  destruct (P e) eqn:HP; [apply HPQ in HP; congruence | by apply IH].
Qed.

(** * The properties of the specification *)

(** ** The texture is swapped at most once *)

Lemma swaps_of_flag w :
  Inv w -> materialSet w = Nat.eqb (occurrences is_swap (trace w)) 1.
Proof. intros HI. rewrite (inv_swaps w HI). by destruct (materialSet w). Qed.

(** C1.  The video-texture swap occurs at most once.  In every run of a
    supported page the trace holds at most one assignment to [cube.material],
    and [materialSet] tells whether it has happened.  When a promise of
    [video.play()] resolves while [materialSet] is still false,
    [setupVideoTexture] gives the cube the video-texture material and sets the
    flag; when one resolves later, the cube, the flag, the texture and the
    trace stay as they are.  The guard itself: [setupVideoTexture] called with
    [materialSet] set returns the world it was given. *)
Theorem texture_swapped_at_most_once p evs k :
  supported p = true ->
  let w := run p evs in
  let w' := step w (Settle k Resolved) in
  (occurrences is_swap (trace w) <= 1)%nat /\
  materialSet w = Nat.eqb (occurrences is_swap (trace w)) 1 /\
  (materialSet w = false -> is_Some (plays w !! k) ->
     material <$> cube w = Some (colored 2236962) /\
     material <$> cube w' = Some video_material /\
     materialSet w' = true /\
     occurrences is_swap (trace w') = 1%nat) /\
  (materialSet w = true ->
     cube w' = cube w /\ materialSet w' = materialSet w /\
     videoTexture w' = videoTexture w /\ trace w' = trace w) /\
  (forall w0, materialSet w0 = true -> setupVideoTexture w0 = (w0, inr tt)).
Proof.
  intros Hp w w'. pose proof (run_inv p evs Hp) as HI. fold w in HI.
  split_and!.
  - rewrite (inv_swaps w HI). destruct (materialSet w); lia.
  - by apply swaps_of_flag.
  - intros Hm [pc Hk]. subst w'. pose proof HI as HI'. open_inv HI.
    rewrite Hm in Hmat. erewrite settle_resolved_first by done. cbn.
    rewrite Hcu. cbn. rewrite Hmat. split_and!; try done.
    rewrite occurrences_app, Hsw, Hm. reflexivity.
  - intros Hm. subst w'. pose proof HI as HI'. open_inv HI.
    destruct (plays w !! k) as [pc|] eqn:Hk.
    + by erewrite settle_resolved_again.
    + by rewrite settle_none.
  - apply setupVideoTexture_again.
Qed.

Lemma texture_swapped_at_most_once_witness :
  supported bare_page = true /\
  (occurrences is_swap
     (trace (run bare_page [Settle 0 Resolved; Click; Settle 0 Resolved])) <= 1)%nat.
Proof.
  split; [reflexivity |].
  exact (proj1 (texture_swapped_at_most_once bare_page
                  [Settle 0 Resolved; Click; Settle 0 Resolved] 0 eq_refl)).
Defined.

(** The run of the witness does swap, once, at the first resolution. *)
Example swap_happens_once :
  let w1 := run bare_page [Settle 0 Resolved] in
  let w2 := run bare_page [Settle 0 Resolved; Click; Settle 0 Resolved] in
  occurrences is_swap (trace w1) = 1%nat /\
  occurrences is_swap (trace w2) = 1%nat /\
  occurrences is_retry (trace w2) = 1%nat /\
  cube w2 = cube w1.
Proof. vm_compute. done. Qed.

(** ** The container *)

Lemma loaded_count P w1 c b :
  shallow P -> is_Some (get_at c (document w1)) ->
  find_body (document w1) = Some b ->
  count P (document (loaded w1 c b)) =
    (count P (document w1) + count P (node "canvas")
     + count P (overlay_button (node "button")))%nat.
Proof.
  intros HP Hc Hb. simpl.
  rewrite count_appended, count_appended; try done.
  apply find_body_valid, find_body_alter_at; [apply grows_push_child | done].
Qed.

Lemma loaded_get_at w1 c b q x :
  get_at q (document w1) = Some x ->
  exists x', get_at q (document (loaded w1 c b)) = Some x' /\
             tag x' = tag x /\ eid x' = eid x.
Proof.
  intros Hq. simpl.
  destruct (get_at_grows (push_child (node "canvas")) c q _ x
              (grows_push_child _) Hq) as (x1 & H1 & Ht1 & Hi1).
  destruct (get_at_grows (push_child (overlay_button (node "button"))) b q _ x1
              (grows_push_child _) H1) as (x2 & H2 & Ht2 & Hi2).
  exists x2. split_and!; congruence.
Qed.

Lemma loaded_canvas w1 c b :
  is_Some (get_at c (document w1)) ->
  exists n canvas,
    get_at (c ++ [n]) (document (loaded w1 c b)) = Some canvas /\ tag canvas = "canvas".
Proof.
  intros Hc. simpl.
  pose proof (get_at_appended (node "canvas") c (document w1) Hc) as H1.
  destruct (get_at_grows (push_child (overlay_button (node "button"))) b _ _ _
              (grows_push_child _) H1) as (x & Hx & Ht & _).
  by exists (child_count c (document w1)), x.
Qed.

(** C2.  The container is created exactly once even if absent from the page.
    If no element has the id "three-container" when the script runs, the
    script creates one [div], gives it that id and appends it as the last
    child of [document.body], where [container] then points, and one element
    has the id afterwards.  If such an element exists, no [div] is created,
    [container] is the element found and the number of elements with that id
    does not change.  In both cases the canvas goes into the container.  On a
    page whose ids are unique (at most one element with that id) exactly one
    element has the id after loading and after every later event, and no
    [div] is created later. *)
Theorem container_created_once p :
  supported p = true ->
  let doc := page_document p in
  let w := load p in
  (find_id CONTAINER_ID doc = None ->
     occurrences (is_create "div") (trace w) = 1%nat /\
     count_id CONTAINER_ID (document w) = 1%nat /\
     exists b e, find_body doc = Some b /\
       container w = Some (b ++ [child_count b doc]) /\
       get_at (b ++ [child_count b doc]) (document w) = Some e /\
       tag e = "div" /\ eid e = CONTAINER_ID) /\
  (forall c, find_id CONTAINER_ID doc = Some c ->
     occurrences (is_create "div") (trace w) = 0%nat /\
     container w = Some c /\
     (exists e, get_at c (document w) = Some e /\ eid e = CONTAINER_ID) /\
     count_id CONTAINER_ID (document w) = count_id CONTAINER_ID doc) /\
  (exists c n canvas, container w = Some c /\
     get_at (c ++ [n]) (document w) = Some canvas /\ tag canvas = "canvas") /\
  ((count_id CONTAINER_ID doc <= 1)%nat ->
     forall evs, count_id CONTAINER_ID (document (run p evs)) = 1%nat /\
                 occurrences (is_create "div") (trace (run p evs)) =
                   (1 - count_id CONTAINER_ID doc)%nat).
Proof.
  intros Hp doc w. destruct (supported_spec p Hp) as (lib & b & H3 & Hb).
  subst doc w.
  assert (find_id CONTAINER_ID (page_document p) = None ->
          load p = loaded (contained (boot p) b)
                          (b ++ [child_count b (page_document p)]) b) as Hnew
    by (intros; by eapply load_created).
  assert (forall c, find_id CONTAINER_ID (page_document p) = Some c ->
          load p = loaded (with_container (Some c)
                     (with_trace [EGetElementById CONTAINER_ID true] (boot p))) c b)
    as Hold by (intros; by eapply load_found).
  assert (find_id CONTAINER_ID (page_document p) = None ->
          count_id CONTAINER_ID (document (load p)) = 1%nat) as Hcount0.
  { intros Hc. rewrite (Hnew Hc). unfold count_id.
    rewrite loaded_count; [| apply shallow_has_id | |].
    - simpl. rewrite count_appended;
        [| apply shallow_has_id | by apply find_body_valid].
      apply find_id_None in Hc. unfold count_id in Hc. rewrite Hc.
      reflexivity.
    - simpl. apply mk_is_Some with (container_div (node "div")).
      apply get_at_appended. by apply find_body_valid.
    - simpl. apply find_body_alter_at; [apply grows_push_child | done]. }
  assert (forall c, find_id CONTAINER_ID (page_document p) = Some c ->
          count_id CONTAINER_ID (document (load p)) =
          count_id CONTAINER_ID (page_document p)) as Hcount1.
  { intros c Hc. rewrite (Hold c Hc). unfold count_id.
    rewrite loaded_count; [| apply shallow_has_id | |]; simpl.
    - unfold count. simpl. lia.
    - apply find_id_Some in Hc as (e & He & _). by rewrite He.
    - done. }
  split_and!.
  - intros Hc. split_and!.
    + rewrite (Hnew Hc). reflexivity.
    + by apply Hcount0.
    + assert (get_at (b ++ [child_count b (page_document p)])
                (document (contained (boot p) b)) = Some (container_div (node "div")))
        as Hdiv by (apply get_at_appended; by apply find_body_valid).
      destruct (loaded_get_at _ (b ++ [child_count b (page_document p)]) b _ _ Hdiv)
        as (e & He & Ht & Hi).
      exists b, e. rewrite (Hnew Hc). by split_and!.
  - intros c Hc. split_and!.
    + rewrite (Hold c Hc). reflexivity.
    + by rewrite (Hold c Hc).
    + pose proof Hc as Hc'. apply find_id_Some in Hc' as (e0 & He0 & Hi0).
      destruct (loaded_get_at (with_container (Some c)
                  (with_trace [EGetElementById CONTAINER_ID true] (boot p))) c b c e0 He0)
        as (e & He & _ & Hi).
      exists e. rewrite (Hold c Hc). split; [done | congruence].
    + by apply (Hcount1 c).
  - destruct (find_id CONTAINER_ID (page_document p)) as [c|] eqn:Hc.
    + destruct (loaded_canvas (with_container (Some c)
                  (with_trace [EGetElementById CONTAINER_ID true] (boot p))) c b)
        as (n & canvas & Hn & Ht).
      { apply find_id_Some in Hc as (e & He & _). simpl. by rewrite He. }
      exists c, n, canvas. by rewrite (Hold c eq_refl).
    + destruct (loaded_canvas (contained (boot p) b)
                  (b ++ [child_count b (page_document p)]) b)
        as (n & canvas & Hn & Ht).
      { simpl. apply mk_is_Some with (container_div (node "div")).
        apply get_at_appended. by apply find_body_valid. }
      exists (b ++ [child_count b (page_document p)]), n, canvas.
      by rewrite (Hnew eq_refl).
  - intros Hle evs. pose proof (run_stable p evs Hp) as HS.
    rewrite (st_ids _ _ HS).
    destruct (st_trace _ _ HS) as (later & -> & Hsetup).
    rewrite occurrences_app.
    rewrite (occurrences_none (is_create "div") is_setup later);
      [| by intros [] | done].
    destruct (find_id CONTAINER_ID (page_document p)) as [c|] eqn:Hc.
    + rewrite (Hcount1 c eq_refl). apply find_id_count in Hc.
      split; [lia |]. rewrite (Hold c eq_refl).
      replace (count_id CONTAINER_ID (page_document p)) with 1%nat by lia.
      reflexivity.
    + split; [by apply Hcount0 |]. rewrite (Hnew eq_refl).
      apply find_id_None in Hc. rewrite Hc. reflexivity.
Qed.

Lemma container_created_once_witness :
  supported prepared_page = true /\
  (count_id CONTAINER_ID (page_document prepared_page) <= 1)%nat /\
  count_id CONTAINER_ID
    (document (run prepared_page [Settle 0 Resolved; Frame 16])) = 1%nat.
Proof.
  assert ((count_id CONTAINER_ID (page_document prepared_page) <= 1)%nat) as Hle
    by (vm_compute; lia).
  split; [reflexivity |]. split; [exact Hle |].
  exact (proj1 (proj2 (proj2 (proj2 (container_created_once prepared_page eq_refl)))
                  Hle [Settle 0 Resolved; Frame 16])).
Defined.

(** A page without the container gets one, under the body. *)
Example container_appended_to_body :
  find_id CONTAINER_ID (page_document bare_page) = None /\
  container (load bare_page) = Some [1; 0]%nat /\
  find_id CONTAINER_ID (document (load bare_page)) = Some [1; 0]%nat /\
  count_id CONTAINER_ID (document (load bare_page)) = 1%nat.
Proof. vm_compute. done. Qed.

(** ** The resize handler *)

Lemma or_int_spec a b :
  (a <> 0 -> Js.or_int a b = a) /\ (a = 0 -> Js.or_int a b = b).
Proof.
  unfold Js.or_int. destruct (Z.eqb_spec a 0); split; intros; congruence.
Qed.

(** C3.  On every resize event the handler recomputes the aspect ratio as
    width over height.  Whatever happened before, a resize event with the
    sizes [l] leaves [camera.aspect] at [W / H] and the renderer's size at
    [(W, H)], the same two numbers, where [W] is the container's
    [clientWidth] unless that is 0 and then the window's [innerWidth], and
    [H] likewise with the heights; for [H] other than 0 the aspect is the
    quotient of the two integers.  The handler calls [renderer.setSize] and
    [camera.updateProjectionMatrix] once each and nothing else. *)
Theorem resize_recomputes_aspect p evs l :
  supported p = true ->
  let w := run p evs in
  let w' := step w (Resize l) in
  let W := resize_width l in
  let H := resize_height l in
  aspect <$> camera w' = Some (Js.div_int W H) /\
  renderer w' ≫= size = Some (W, H) /\
  trace w' = trace w ++ [ESetSize W H; EUpdateProjection] /\
  (clientWidth l <> 0 -> W = clientWidth l) /\
  (clientWidth l = 0 -> W = innerWidth l) /\
  (clientHeight l <> 0 -> H = clientHeight l) /\
  (clientHeight l = 0 -> H = innerHeight l) /\
  (H <> 0 -> Js.div_int W H = Js.Fin (inject_Z W / inject_Z H)).
Proof.
  intros Hp w w' W H. pose proof (run_inv p evs Hp) as HI. fold w in HI.
  pose proof HI as HI'. open_inv HI.
  subst w'. erewrite resize_ok by done. cbn. fold W H.
  split_and!; try done; try apply or_int_spec.
  intros HH. unfold Js.div_int. by destruct (Z.eqb_spec H 0).
Qed.

Lemma resize_recomputes_aspect_witness :
  supported bare_page = true /\
  aspect <$> camera (step (run bare_page [Frame 16]) (Resize (Build_Layout 0 0 1280 720))) =
    Some (Js.div_int (resize_width (Build_Layout 0 0 1280 720))
                     (resize_height (Build_Layout 0 0 1280 720))).
Proof.
  split; [reflexivity |].
  exact (proj1 (resize_recomputes_aspect bare_page [Frame 16]
                  (Build_Layout 0 0 1280 720) eq_refl)).
Defined.

(** With an empty container the window's size is used: 1280 by 720. *)
Example resize_falls_back_to_window :
  let w := run bare_page [Frame 16; Resize (Build_Layout 0 0 1280 720)] in
  aspect <$> camera w = Some (Js.Fin (inject_Z 1280 / inject_Z 720)) /\
  renderer w ≫= size = Some (1280, 720).
Proof. vm_compute. done. Qed.

(** The script itself calls the handler once while it loads. *)
Lemma resize_at_load p :
  supported p = true ->
  aspect <$> camera (load p) =
    Some (Js.div_int (resize_width (page_layout p)) (resize_height (page_layout p))).
Proof.
  intros Hp. destruct (supported_spec p Hp) as (lib & b & H3 & Hb).
  destruct (find_id CONTAINER_ID (page_document p)) as [c|] eqn:Hc.
  - by erewrite load_found.
  - by erewrite load_created.
Qed.

(** ** Blocked autoplay *)

Lemma loaded_overlay w1 c b :
  find_body (document w1) = Some b ->
  overlay_element (loaded w1 c b) = Some (overlay_button (node "button")).
Proof.
  intros Hb. unfold overlay_element. simpl.
  apply get_at_appended, find_body_valid.
  apply find_body_alter_at; [apply grows_push_child | done].
Qed.

Lemma load_overlay p :
  supported p = true ->
  overlay_element (load p) = Some (overlay_button (node "button")).
Proof.
  intros Hp. destruct (supported_spec p Hp) as (lib & b & H3 & Hb).
  destruct (find_id CONTAINER_ID (page_document p)) as [c|] eqn:Hc.
  - erewrite load_found by done. by apply loaded_overlay.
  - erewrite load_created by done. apply loaded_overlay. simpl.
    apply find_body_alter_at; [apply grows_push_child | done].
Qed.

Lemma load_plays p : supported p = true -> plays (load p) = [Autoplay].
Proof.
  intros Hp. destruct (supported_spec p Hp) as (lib & b & H3 & Hb).
  destruct (find_id CONTAINER_ID (page_document p)) as [c|] eqn:Hc.
  - by erewrite load_found.
  - by erewrite load_created.
Qed.

Lemma load_materialSet p : supported p = true -> materialSet (load p) = false.
Proof.
  intros Hp. destruct (supported_spec p Hp) as (lib & b & H3 & Hb).
  destruct (find_id CONTAINER_ID (page_document p)) as [c|] eqn:Hc.
  - by erewrite load_found.
  - by erewrite load_created.
Qed.

(** C4, amended.  The only handled failure is a rejected [video.play()],
    whatever the reason of the rejection.  On a page with a body: when the
    library is there, the script loads without an uncaught error, with the
    overlay button shown and one promise pending; if that promise is
    rejected, be it for refused autoplay, for a missing file or for an
    unsupported codec, nothing is uncaught, the script writes its console
    line about blocked autoplay, and the button stays shown with its click
    listener: the rejection is not left alone, and the step is the same as
    for refused autoplay.  If the promise resolves, the button gets
    [display: none].  A promise settled at any later moment is caught or
    hides the button likewise.  The script listens to nothing but the click
    on the button and the resize of the window, so no other failure reaches
    it; and when the global [THREE] is missing the script is left with an
    uncaught [ReferenceError] before it has made the button, a listener or a
    call of [play]. *)
Theorem only_a_rejected_play_is_handled p :
  Js.defined (find_body (page_document p)) = true ->
  (Js.defined (page_three p) = true ->
     let w := load p in
     uncaught w = [] /\ plays w = [Autoplay] /\ overlay_display w = Some None /\
     window_listeners w = [resize_listener] /\ overlay_listeners w = [click_listener] /\
     (forall reason,
        let w' := step w (Settle 0 (Rejected reason)) in
        uncaught w' = [] /\ overlay_display w' = Some None /\
        overlay_listeners w' = [click_listener] /\ materialSet w' = false /\
        trace w' = trace w ++
          [EConsole Info "Autoplay blocked — click to play the video."] /\
        ~ left_alone w w' /\
        w' = step w (Settle 0 (Rejected autoplay_refusal))) /\
     (let w' := step w (Settle 0 Resolved) in
      uncaught w' = [] /\ overlay_display w' = Some (Some "none")) /\
     (forall evs k,
        let w1 := run p evs in
        is_Some (plays w1 !! k) ->
        (forall reason,
           let w' := step w1 (Settle k (Rejected reason)) in
           uncaught w' = [] /\ overlay_display w' = overlay_display w1) /\
        (let w' := step w1 (Settle k Resolved) in
         uncaught w' = [] /\ overlay_display w' = Some (Some "none")))) /\
  (page_three p = None ->
     let w := load p in
     uncaught w = [Js.ReferenceError "THREE"] /\
     overlay w = None /\ video w = None /\ plays w = [] /\
     window_listeners w = [] /\ overlay_listeners w = [] /\ frame_queue w = [] /\
     left_alone (boot p) w).
Proof.
  intros Hbody. split.
  - intros Hlib w.
    assert (supported p = true) as Hp by (unfold supported; by rewrite Hlib, Hbody).
    assert (forall evs k,
      let w1 := run p evs in
      is_Some (plays w1 !! k) ->
      (forall reason,
         let w' := step w1 (Settle k (Rejected reason)) in
         uncaught w' = [] /\ overlay_display w' = overlay_display w1 /\
         overlay_listeners w' = overlay_listeners w1 /\
         materialSet w' = materialSet w1 /\
         exists pc, plays w1 !! k = Some pc /\
           trace w' = trace w1 ++ [blocked_message pc reason]) /\
      (let w' := step w1 (Settle k Resolved) in
       uncaught w' = [] /\ overlay_display w' = Some (Some "none"))) as Hany.
    { intros evs k w1 [pc Hk]. pose proof (run_inv p evs Hp) as HI. fold w1 in HI.
      split.
      - intros reason w'. subst w'. erewrite settle_rejected by done.
        split_and!; try done; [by destruct HI | by exists pc].
      - intros w'. pose proof (step_inv w1 (Settle k Resolved) HI) as HI'.
        fold w' in HI'. split; [by destruct HI' |].
        subst w'. open_inv HI. unfold overlay_display, overlay_element.
        destruct (materialSet w1) eqn:Hm.
        + erewrite settle_resolved_again by done. simpl. rewrite Hov.
          erewrite get_at_alter_at by done. simpl. by rewrite lookup_insert_eq.
        + erewrite settle_resolved_first by done. simpl. rewrite Hov.
          erewrite get_at_alter_at by done. simpl. by rewrite lookup_insert_eq. }
    pose proof (load_inv p Hp) as HI. fold w in HI.
    assert (overlay_display w = Some None) as Hshown.
    { unfold overlay_display. subst w. by rewrite load_overlay. }
    assert (plays w = [Autoplay]) as Hplays by (by apply load_plays).
    assert (overlay_listeners w = [click_listener]) as Hclick.
    { destruct (inv_overlay_listeners w HI) as [[? _] | [_ Hr]]; [done |].
      exfalso. subst w.
      destruct (supported_spec p Hp) as (lib & b & H3' & Hb).
      destruct (find_id CONTAINER_ID (page_document p)) as [c|] eqn:Hc.
      - by erewrite load_found in Hr.
      - by erewrite load_created in Hr. }
    destruct (Hany [] 0%nat) as [Hrej Hres].
    { change (run p []) with w. rewrite Hplays. by eexists. }
    change (run p []) with w in Hrej, Hres.
    split_and!; try done; try by destruct HI.
    + intros reason w'. destruct (Hrej reason) as (Hu & Hd & Hl & Hm & pc & Hpc & Ht).
      fold w' in Hu, Hd, Hl, Hm, Ht. rewrite Hplays in Hpc. injection Hpc as <-.
      assert (uncaught w = []) as Hu0 by (by destruct HI).
      split_and!; try congruence; [| exact Ht | |].
      * rewrite Hm. by apply load_materialSet.
      * intros [H | H]; [congruence |].
        rewrite Ht in H. apply (f_equal length) in H.
        rewrite length_app in H. simpl in H. lia.
      * subst w'. by rewrite !(settle_rejected w 0 Autoplay) by (by rewrite Hplays).
    + intros evs k w1 Hk. destruct (Hany evs k Hk) as [Hrej' Hres'].
      split; [|done]. intros reason. destruct (Hrej' reason) as (? & ? & _). done.
  - intros Hlib w.
    destruct (load_no_three p Hlib) as (w1 & Hw & H & _ & Hwl & Hol & Hfq & Hpl & _ & Hv & Ho & _).
    { by destruct (find_body (page_document p)). }
    subst w. rewrite Hw. simpl. split_and!; try done. by left.
Qed.

Lemma only_a_rejected_play_is_handled_witness :
  Js.defined (find_body (page_document bare_page)) = true /\
  Js.defined (page_three bare_page) = true /\
  uncaught (step (load bare_page)
              (Settle 0 (Rejected (Js.DOMException "NotAllowedError")))) = [] /\
  overlay_display (step (load bare_page)
                     (Settle 0 (Rejected (Js.DOMException "NotAllowedError")))) = Some None.
Proof.
  split; [reflexivity |]. split; [reflexivity |].
  pose proof (only_a_rejected_play_is_handled bare_page eq_refl) as [H _].
  destruct (H eq_refl) as (_ & _ & _ & _ & _ & Hrej & _).
  destruct (Hrej (Js.DOMException "NotAllowedError")) as (Hu & Hd & _).
  exact (conj Hu Hd).
Defined.

(** A page without the library: the script dies on line 23. *)
Example missing_library_is_uncaught :
  uncaught (load broken_page) = [Js.ReferenceError "THREE"] /\
  uncaught (run broken_page [Click; Frame 16; Settle 0 Resolved])
    = [Js.ReferenceError "THREE"].
Proof. vm_compute. done. Qed.

(** C4, as stated, fails.  The claim counts a missing video file and an
    unsupported codec among the failures that have no handler and end as
    uncaught errors or silent no-ops.  For either of them the browser rejects
    the promise of [video.play()], and the [catch] of the script takes every
    rejection: on the sample page the rejection leaves no uncaught error and
    is not silent, the script reports it on the console as blocked autoplay
    and keeps the button, as it does for refused autoplay. *)
Lemma missing_video_is_handled :
  supported bare_page = true /\
  unusable_source <> autoplay_refusal /\
  let w := load bare_page in
  let w' := step w (Settle 0 (Rejected unusable_source)) in
  plays w = [Autoplay] /\
  uncaught w' = uncaught w /\
  trace w' = trace w ++
             [EConsole Info "Autoplay blocked — click to play the video."] /\
  overlay_display w' = Some None /\
  ~ left_alone w w'.
Proof.
  split; [reflexivity |]. split; [discriminate |]. cbv zeta.
  split_and!; try (vm_compute; reflexivity).
  intros [H | H].
  - apply H. vm_compute. reflexivity.
  - apply (f_equal length) in H. vm_compute in H. discriminate.
Qed.

(** ** One retry *)

Lemma retry_step w e :
  Inv w ->
  occurrences is_retry (trace (step w e)) =
    if is_click e then 1%nat else occurrences is_retry (trace w).
Proof.
  intros HI. step_cases w e HI; cbn; try done.
  all: count_trace; try done; try lia.
  by destruct pc.
Qed.

Lemma retry_count p evs :
  supported p = true ->
  occurrences is_retry (trace (run p evs)) =
    if existsb is_click evs then 1%nat else 0%nat.
Proof.
  intros Hp. induction evs as [|e evs IH] using rev_ind.
  - destruct (load_facts p Hp) as (w1 & c & b & Hw & _ & _ & _ & _ & _ & _ & _ & _ & _ & Hr & _).
    unfold run. simpl. rewrite Hw. simpl. rewrite occurrences_app, Hr. reflexivity.
  - rewrite run_snoc, retry_step by (by apply run_inv).
    rewrite existsb_app. simpl. rewrite orb_false_r, IH.
    by destruct (is_click e), (existsb is_click evs).
Qed.

(** C5.  Failure recovery is a single retry on click.  The script registers
    [tryPlay] on the overlay button for "click" with [once], and that is the
    only listener the button has.  Over any sequence of events [tryPlay] runs
    exactly once if the sequence holds a click and never otherwise: the first
    click calls [video.play()] again and takes the listener away; any click
    after that leaves the world as it is, also when the retry has been
    rejected in between. *)
Theorem single_retry_on_click p evs :
  supported p = true ->
  let w := run p evs in
  overlay_listeners (load p) = [click_listener] /\
  l_once click_listener = true /\ l_fn click_listener = FnTryPlay /\
  occurrences is_retry (trace w) = (if existsb is_click evs then 1%nat else 0%nat) /\
  (occurrences is_retry (trace w) <= 1)%nat /\
  (existsb is_click evs = false ->
     let w' := step w Click in
     overlay_listeners w' = [] /\ plays w' = plays w ++ [Retry] /\
     trace w' = trace w ++ [EPlay Retry]) /\
  (existsb is_click evs = true -> overlay_listeners w = [] /\ step w Click = w) /\
  (forall k reason more,
     let w' := run p (evs ++ [Click; Settle k (Rejected reason)] ++ more) in
     step w' Click = w').
Proof.
  intros Hp w. pose proof (run_inv p evs Hp) as HI. fold w in HI.
  pose proof (retry_count p evs Hp) as Hcount. fold w in Hcount.
  assert (forall evs', existsb is_click evs' = true ->
            overlay_listeners (run p evs') = [] /\
            step (run p evs') Click = run p evs') as Hlater.
  { intros evs' Hc. pose proof (run_inv p evs' Hp) as HI'.
    pose proof (retry_count p evs' Hp) as Hcount'. rewrite Hc in Hcount'.
    destruct (inv_overlay_listeners _ HI') as [[_ Hr] | [Hl _]]; [congruence |].
    split; [done | by apply click_again]. }
  split_and!; try done.
  - pose proof (load_inv p Hp) as HI0. pose proof (retry_count p [] Hp) as H0.
    destruct (inv_overlay_listeners _ HI0) as [[Hl _] | [_ Hr]]; [done |].
    unfold run in H0. simpl in H0. congruence.
  - rewrite Hcount. destruct (existsb is_click evs); lia.
  - intros Hc w'. rewrite Hc in Hcount. pose proof HI as HI'. open_inv HI.
    destruct Hol as [[Hol _] | [_ Hr]]; [|congruence].
    subst w'. by erewrite click_first.
  - apply Hlater.
  - intros k reason more w'. apply Hlater.
    rewrite !existsb_app. simpl. by rewrite orb_true_r.
Qed.

Lemma single_retry_on_click_witness :
  supported bare_page = true /\
  occurrences is_retry
    (trace (run bare_page
              [Settle 0 (Rejected (Js.DOMException "NotAllowedError")); Click;
               Settle 0 (Rejected (Js.DOMException "NotAllowedError")); Click; Click]))
  = (if existsb is_click
          [Settle 0 (Rejected (Js.DOMException "NotAllowedError")); Click;
           Settle 0 (Rejected (Js.DOMException "NotAllowedError")); Click; Click]
     then 1%nat else 0%nat).
Proof.
  split; [reflexivity |].
  exact (proj1 (proj2 (proj2 (proj2 (single_retry_on_click bare_page
    [Settle 0 (Rejected (Js.DOMException "NotAllowedError")); Click;
     Settle 0 (Rejected (Js.DOMException "NotAllowedError")); Click; Click]
    eq_refl))))).
Defined.

(** Three clicks, one retry. *)
Example three_clicks_one_retry :
  let w := run bare_page
             [Settle 0 (Rejected (Js.DOMException "NotAllowedError")); Click;
              Settle 0 (Rejected (Js.DOMException "NotAllowedError")); Click; Click] in
  occurrences is_retry (trace w) = 1%nat /\ plays w = [] /\
  overlay_listeners w = [] /\ overlay_display w = Some None.
Proof. vm_compute. done. Qed.

(** ** Who writes the persistent state *)

(** C6, as stated, fails: the per-frame callback assigns [last], and the
    resize callback assigns none of the four.  On the sample page the time of
    the last frame is 0 after loading and 16 after a frame at 16, while a
    resize leaves the persistent state as it is. *)
Lemma animate_assigns_last :
  supported bare_page = true /\
  last (load bare_page) = Some 0%Q /\
  last (step (load bare_page) (Frame 16)) = Some 16%Q /\
  persistent (step (load bare_page) (Frame 16)) <> persistent (load bare_page) /\
  persistent (step (load bare_page) (Resize (Build_Layout 0 0 1280 720)))
    = persistent (load bare_page).
Proof.
  split_and!; try (vm_compute; reflexivity).
  intros H. assert (last (step (load bare_page) (Frame 16)) = last (load bare_page))
    as Hl by (unfold persistent in H; congruence).
  vm_compute in Hl. discriminate.
Qed.

(** C6, amended.  The persistent state is set up while the script loads and
    then written as follows.  The per-frame callback assigns [last] on every
    frame and sets [needsUpdate] on the texture when there is one and the
    video has data; it leaves the video, the material and the flag alone.  A
    resolved [play()] assigns material, texture and flag the first time and
    nothing of the persistent state afterwards.  The resize callback, a
    rejected [play()], a click and a call of [showVideoURL] write none of it.
    The script never assigns [video]; only the browser moves its
    [readyState]. *)
Theorem persistent_state_writers p evs e :
  supported p = true ->
  let w := run p evs in
  let w' := step w e in
  match e with
  | Frame t =>
      last w' = Some t /\ video w' = video w /\ materialSet w' = materialSet w /\
      material <$> cube w' = material <$> cube w /\
      videoTexture w' = refreshed (videoTexture w) (video w)
  | Settle k Resolved =>
      last w' = last w /\ video w' = video w /\
      (materialSet w = true -> persistent w' = persistent w) /\
      (materialSet w = false -> is_Some (plays w !! k) ->
         materialSet w' = true /\ material <$> cube w' = Some video_material /\
         is_Some (videoTexture w') /\ videoTexture w = None)
  | Media rs =>
      video w' = vid_readyState rs <$> video w /\ last w' = last w /\
      materialSet w' = materialSet w /\ cube w' = cube w /\
      videoTexture w' = videoTexture w
  | Settle _ (Rejected _) | Click | Resize _ | Console _ =>
      persistent w' = persistent w
  end.
Proof.
  intros Hp w w'. pose proof (run_inv p evs Hp) as HI. fold w in HI. subst w'.
  unfold persistent. step_cases w e HI; cbn; rewrite ?Hcu, ?Hv; cbn; try done.
  - rewrite Hm. by split_and!.
  - split_and!; try done. intros _ _. split_and!; try done.
    by destruct (videoTexture w).
Qed.

Lemma persistent_state_writers_witness :
  supported bare_page = true /\
  last (step (run bare_page [Settle 0 Resolved]) (Frame 16)) = Some 16%Q.
Proof.
  split; [reflexivity |].
  exact (proj1 (persistent_state_writers bare_page [Settle 0 Resolved] (Frame 16) eq_refl)).
Defined.

(** ** The order of the setup steps *)

Lemma in_order_nil tr : in_order [] tr = true.
Proof. by destruct tr. Qed.

(** Dropping the first step wanted, or putting an effect in front, keeps a
    trace in order. *)
Lemma in_order_weaken tr :
  (forall p ps, in_order (p :: ps) tr = true -> in_order ps tr = true) /\
  (forall ps e, in_order ps tr = true -> in_order ps (e :: tr) = true).
Proof.
  induction tr as [|x tr [IHdrop IHcons]].
  - split; [done |]. intros [|p ps] e H; [done | by simpl in H].
  - assert (forall p ps, in_order (p :: ps) (x :: tr) = true ->
                         in_order ps (x :: tr) = true) as Hdrop.
    { intros p ps. simpl. destruct (p x).
      - intros H. by apply IHcons.
      - intros H. apply IHdrop in H. by apply IHcons. }
    split; [done |]. intros [|p ps] e H; [done |].
    cbn [in_order]. destruct (p e); [by eapply Hdrop | done].
Qed.

Lemma in_order_skip ps l tr : in_order ps tr = true -> in_order ps (l ++ tr) = true.
Proof.
  intros H. induction l as [|e l IH]; [done |]. simpl.
  by apply (proj2 (in_order_weaken (l ++ tr))).
Qed.

Lemma in_order_app ps qs l1 l2 :
  in_order ps l1 = true -> in_order qs l2 = true ->
  in_order (ps ++ qs) (l1 ++ l2) = true.
Proof.
  revert ps. induction l1 as [|e l1 IH]; intros ps H1 H2.
  - destruct ps; [done | by simpl in H1].
  - destruct ps as [|p ps].
    + simpl. by apply (in_order_skip qs (e :: l1)).
    + simpl in *. destruct (p e); [by apply IH | by apply (IH (p :: ps))].
Qed.

Lemma in_order_occurs P tr :
  (1 <= occurrences P tr)%nat -> in_order [P] tr = true.
Proof.
  induction tr as [|e tr IH]; simpl; [lia |].
  destruct (P e); [intros _; apply in_order_nil | intros H; apply IH; lia].
Qed.

Lemma loaded_in_order w1 c b :
  in_order [is_locate] (trace w1) = true ->
  in_order sequence_of_load (trace (loaded w1 c b)) = true.
Proof.
  intros H. simpl.
  by apply (in_order_app [is_locate] (tl sequence_of_load)).
Qed.

(** C7, as stated, fails.  On the sample page with autoplay allowed the
    material is swapped (once), yet the trace does not hold the steps in the
    order (a) (b) (c) (d) (e) (f): no resize listener is registered after the
    swap.  It holds them in the order (a) (b) (c) (e) (f) (d). *)
Lemma swap_follows_setup :
  supported bare_page = true /\
  occurrences is_swap (trace (run bare_page [Settle 0 Resolved])) = 1%nat /\
  in_order sequence_as_stated (trace (run bare_page [Settle 0 Resolved])) = false /\
  in_order sequence_as_run (trace (run bare_page [Settle 0 Resolved])) = true.
Proof. vm_compute. done. Qed.

(** C7, amended.  The body of the script locates or creates the container,
    constructs renderer, scene, camera and the mesh with its placeholder
    material, constructs the video element without adding it to the document
    and calls [play()], registers the resize listener and requests the first
    animation frame, in this order, and swaps no material while it does so.
    Everything a later event adds comes after these steps, and none of them
    is done again: so the swap of the material, when playback succeeds,
    comes after (e) and (f), which happen whether or not it succeeds. *)
Theorem setup_sequence p evs :
  supported p = true ->
  in_order sequence_of_load (trace (load p)) = true /\
  occurrences is_swap (trace (load p)) = 0%nat /\
  count_tag "video" (document (load p)) = count_tag "video" (page_document p) /\
  plays (load p) = [Autoplay] /\
  window_listeners (load p) = [resize_listener] /\
  frame_queue (load p) = [FnAnimate] /\
  (exists later, trace (run p evs) = trace (load p) ++ later /\
                 occurrences is_setup later = 0%nat /\
                 occurrences is_swap later = occurrences is_swap (trace (run p evs))) /\
  ((1 <= occurrences is_swap (trace (run p evs)))%nat ->
     in_order sequence_as_run (trace (run p evs)) = true).
Proof.
  intros Hp.
  destruct (load_facts p Hp)
    as (w1 & c & b & Hw & Hb & Hc & _ & _ & _ & _ & _ & Hloc & Hsw & _ & _ & _ & Hvid).
  assert (in_order sequence_of_load (trace (load p)) = true) as Hord
    by (rewrite Hw; by apply loaded_in_order).
  assert (occurrences is_swap (trace (load p)) = 0%nat) as Hnone
    by (rewrite Hw; simpl; rewrite occurrences_app, Hsw; reflexivity).
  destruct (st_trace _ _ (run_stable p evs Hp)) as (later & Hlater & Hsetup).
  assert (occurrences is_swap later = occurrences is_swap (trace (run p evs))) as Hsame
    by (rewrite Hlater, occurrences_app, Hnone; reflexivity).
  split_and!; try done; try (by rewrite Hw).
  - rewrite Hw. unfold count_tag in *. rewrite loaded_count, Hvid;
      [| apply shallow_has_tag | done | done].
    unfold count at 2 3. simpl. lia.
  - by exists later.
  - intros H. rewrite Hlater.
    apply (in_order_app sequence_of_load [is_swap]); [done |].
    apply in_order_occurs. lia.
Qed.

Lemma setup_sequence_witness :
  supported bare_page = true /\
  in_order sequence_of_load (trace (load bare_page)) = true.
Proof.
  split; [reflexivity |].
  exact (proj1 (setup_sequence bare_page [] eq_refl)).
Defined.

(** ** The animation loop *)

(** Without its guard the assignment would throw while there is no
    texture. *)
Lemma unguarded_touch_throws w :
  videoTexture w = None ->
  on_videoTexture (tex_needsUpdate true) w =
    (w, inl (Js.TypeError "videoTexture is undefined")).
Proof. intros H. unfold on_videoTexture, bind, get, throw. by rewrite H. Qed.

(** Whatever the world, [animate] does not throw that error. *)
Lemma animate_guard t w w' e :
  animate t w = (w', inl e) -> e <> Js.TypeError "videoTexture is undefined".
Proof.
  destruct w. unfold animate. run_m.
  repeat match goal with
         | |- context [match ?o with Some _ => _ | None => _ end] =>
             is_var o; destruct o; run_m
         | |- context [if Z.leb 2 ?x then _ else _] => destruct (Z.leb 2 x); run_m
         end;
    intros [= ? ?]; subst; discriminate.
Qed.

(** C8.  The animation loop does not crash when the video is not ready.
    [animate] never fails on the texture, in any world; without the guard the
    assignment would.  In every run of a supported page a frame returns
    normally: it requests the next frame, renders once, and assigns
    [needsUpdate] only when [videoTexture] holds a texture and
    [video.readyState] is at least 2; before the swap [videoTexture] stays
    [undefined].  The frame rotates the cube: with [dt] the seconds since
    [last], it adds [dt * 0.35] to [rotation.x] and [dt * 0.6] to
    [rotation.y], leaves the geometry and the material of the cube alone, and
    sets [last] to the time of the frame; the cube after the frame event is
    that rotated cube.  No event of any run leaves an uncaught error. *)
Theorem animate_survives_unready_video p evs t :
  supported p = true ->
  let w := run p evs in
  (forall w0 w0' e, animate t w0 = (w0', inl e) ->
                    e <> Js.TypeError "videoTexture is undefined") /\
  (videoTexture w = None ->
     on_videoTexture (tex_needsUpdate true) w =
       (w, inl (Js.TypeError "videoTexture is undefined"))) /\
  (exists w', animate t w = (w', inr tt) /\
     videoTexture w' = refreshed (videoTexture w) (video w) /\
     (materialSet w = false -> videoTexture w = None /\ videoTexture w' = None) /\
     (forall v, video w = Some v -> readyState v < 2 -> videoTexture w' = videoTexture w) /\
     (forall v x, video w = Some v -> videoTexture w = Some x -> 2 <= readyState v ->
                  videoTexture w' = Some (tex_needsUpdate true x)) /\
     rendered <$> renderer w' = S <$> (rendered <$> renderer w) /\
     trace w' = trace w ++ [ERequestFrame FnAnimate; ERender] /\
     frame_queue w' = frame_queue w ++ [FnAnimate] /\
     last w' = Some t /\
     (exists c c' l,
        cube w = Some c /\ last w = Some l /\ cube w' = Some c' /\
        rotation_x c' = (rotation_x c + (t - l) / 1000 * (35 # 100))%Q /\
        rotation_y c' = (rotation_y c + (t - l) / 1000 * (6 # 10))%Q /\
        geometry c' = geometry c /\ material c' = material c /\
        cube (step w (Frame t)) = Some c' /\ last (step w (Frame t)) = Some t)) /\
  uncaught (step w (Frame t)) = [] /\
  uncaught w = [].
Proof.
  intros Hp w. pose proof (run_inv p evs Hp) as HI. fold w in HI.
  split_and!.
  - apply animate_guard.
  - apply unguarded_touch_throws.
  - pose proof HI as HI'. open_inv HI. eexists. split; [by eapply animate_ok |].
    cbn. rewrite Hrd, Hv. cbn. split_and!; try done.
    + intros Hm. rewrite Hm in Htx. by destruct (videoTexture w).
    + intros v [= <-] Hrs. destruct (videoTexture w); [|done]. simpl.
      destruct (Z.leb_spec 2 (readyState vid0)); [lia | done].
    + intros v x [= <-] -> Hrs. simpl.
      destruct (Z.leb_spec 2 (readyState vid0)); [done | lia].
    + eexists cu0, _, last0. split_and!; try done; try reflexivity.
      all: match goal with
           | |- context [foldl ?f ?a ?l] => change (foldl f a l) with (step w (Frame t))
           end.
      all: erewrite frame_ok by done; reflexivity.
  - apply (inv_uncaught _ (step_inv w (Frame t) HI)).
  - apply (inv_uncaught _ HI).
Qed.

Lemma animate_survives_unready_video_witness :
  supported bare_page = true /\
  uncaught (step (run bare_page [Frame 16; Media 1]) (Frame 33)) = [].
Proof.
  split; [reflexivity |].
  exact (proj1 (proj2 (proj2 (proj2
    (animate_survives_unready_video bare_page [Frame 16; Media 1] 33 eq_refl))))).
Defined.

(** Frames before the swap, and one after it with the video ready. *)
Example frames_around_the_swap :
  let w1 := run bare_page [Frame 16; Media 1; Frame 33] in
  let w2 := run bare_page [Frame 16; Settle 0 Resolved; Frame 33] in
  let w3 := run bare_page [Frame 16; Settle 0 Resolved; Media 4; Frame 33] in
  videoTexture w1 = None /\ uncaught w1 = [] /\
  needsUpdate <$> videoTexture w2 = Some false /\
  needsUpdate <$> videoTexture w3 = Some true /\ uncaught w3 = [].
Proof. vm_compute. done. Qed.

(** A frame one second after loading turns the cube by 0.35 about x and by
    0.6 about y. *)
Example one_second_of_rotation :
  (fun c => (Qeq_bool (rotation_x c) (35 # 100), Qeq_bool (rotation_y c) (6 # 10)))
    <$> cube (run bare_page [Frame 1000]) = Some (true, true).
Proof. vm_compute. done. Qed.

(** ** The debugging globals *)

Lemma step_resolve_url w e : Inv w -> resolve_url (step w e) = resolve_url w.
Proof. intros HI. step_cases w e HI; by cbn. Qed.

Lemma run_resolve_url p evs :
  supported p = true -> resolve_url (run p evs) = page_resolve p.
Proof.
  intros Hp. induction evs as [|e evs IH] using rev_ind.
  - destruct (supported_spec p Hp) as (lib & b & H3 & Hb). unfold run. simpl.
    destruct (find_id CONTAINER_ID (page_document p)) as [c|] eqn:Hc.
    + by erewrite load_found.
    + by erewrite load_created.
  - rewrite run_snoc, step_resolve_url; [done | by apply run_inv].
Qed.

(** C9.  Exactly two debugging globals are attached to [window].  After any
    run of a supported page the properties of [window] are those it had
    before the script ran plus [showVideoURL] and [__threeCube]; the former
    is the script's function that logs the video source, the latter an object
    holding the video, the cube, the renderer, the scene and the camera; all
    other properties are as the page had them, and the script assigns to a
    property of [window] twice in all.  Called from the console,
    [showVideoURL] logs three lines: the source of the video as [video.src]
    reads it back, which is the assigned path resolved by the browser against
    the base URL of the document; a hint; and the origin of the page followed
    by a slash and the assigned path. *)
Theorem two_debugging_globals p evs :
  supported p = true ->
  let w := run p evs in
  dom (window w) =@{gset string} {[ "showVideoURL"; "__threeCube" ]} ∪ dom (page_window p) /\
  window w !! "showVideoURL" = Some (GFunction FnShowVideoURL) /\
  window w !! "__threeCube" =
    Some (GObject [ ("video", RVideo); ("cube", RCube); ("renderer", RRenderer);
                    ("scene", RScene); ("camera", RCamera) ]) /\
  (forall k, k <> "showVideoURL" -> k <> "__threeCube" ->
             window w !! k = GHost <$> page_window p !! k) /\
  occurrences is_set_global (trace w) = 2%nat /\
  (exists v, video w = Some v /\ src v = VIDEO_SRC /\
     video_src w v = page_resolve p "images/hanterrace.mp4" /\
     trace (step w (Console "showVideoURL")) =
       trace w ++
       [EConsole Log (String.append "Video src: "
                        (page_resolve p "images/hanterrace.mp4"));
        EConsole Log "Attempt to open this URL in a new tab to confirm it's reachable:";
        EConsole Log (String.append (page_origin p) "/images/hanterrace.mp4")]).
Proof.
  intros Hp w.
  destruct (load_facts p Hp)
    as (w1 & c & b & Hw & Hb & Hc & Hwin & _ & _ & _ & Horigin & _ & _ & _ & Hglob & _).
  pose proof (run_stable p evs Hp) as HS. fold w in HS.
  pose proof (run_inv p evs Hp) as HI. fold w in HI.
  assert (window w = <["__threeCube" := threeCube]>
                       (<["showVideoURL" := GFunction FnShowVideoURL]>
                          (GHost <$> page_window p))) as Hwindow.
  { rewrite (st_window _ _ HS), Hw. simpl. by rewrite Hwin. }
  split_and!.
  - rewrite Hwindow, !dom_insert_L, dom_fmap_L.
    by rewrite (assoc_L (∪)), (comm_L (∪) {["__threeCube"]}).
  - rewrite Hwindow. by rewrite lookup_insert_ne, lookup_insert_eq.
  - rewrite Hwindow. by rewrite lookup_insert_eq.
  - intros k H1 H2. rewrite Hwindow.
    by rewrite !lookup_insert_ne, lookup_fmap.
  - destruct (st_trace _ _ HS) as (later & Hlater & Hsetup).
    rewrite Hlater, occurrences_app, Hw. simpl. rewrite occurrences_app, Hglob.
    assert (occurrences is_set_global later = 0%nat) as ->; [|reflexivity].
    clear -Hsetup. induction later as [|e later IH]; [done |].
    simpl in *. destruct e; simpl in *; try lia. all: try (apply IH; lia).
    all: destruct textured || destruct c; simpl in *; try lia; apply IH; lia.
  - pose proof HI as HI'. open_inv HI. exists vid0.
    assert (src vid0 = VIDEO_SRC) as Hsrc.
    { pose proof (st_src _ _ HS) as H. rewrite Hv, Hw in H. simpl in H. congruence. }
    assert (video_src w vid0 = page_resolve p "images/hanterrace.mp4") as Hread.
    { unfold video_src. rewrite Hsrc. unfold w. by rewrite run_resolve_url. }
    split_and!; try done.
    erewrite console_showVideoURL;
      [| by rewrite Hwindow, lookup_insert_ne, lookup_insert_eq | done].
    rewrite Hread. simpl. repeat f_equal.
    rewrite (st_origin _ _ HS), Hw. simpl. by rewrite Horigin.
Qed.

Lemma two_debugging_globals_witness :
  supported bare_page = true /\
  occurrences is_set_global
    (trace (run bare_page [Console "showVideoURL"; Frame 16; Click])) = 2%nat.
Proof.
  split; [reflexivity |].
  exact (proj1 (proj2 (proj2 (proj2 (proj2
    (two_debugging_globals bare_page [Console "showVideoURL"; Frame 16; Click]
       eq_refl)))))).
Defined.

(** What the function prints on the sample page, which lies in a folder of
    its site: the first line names the video where the browser looks for it,
    the last one names it at the root of the site. *)
Example showVideoURL_on_sample_page :
  trace (step (load bare_page) (Console "showVideoURL")) =
    trace (load bare_page) ++
    [EConsole Log "Video src: https://example.org/docs/images/hanterrace.mp4";
     EConsole Log "Attempt to open this URL in a new tab to confirm it's reachable:";
     EConsole Log "https://example.org/images/hanterrace.mp4"].
Proof. vm_compute. done. Qed.

(** The window of the sample page after loading. *)
Example window_of_sample_page :
  map_to_list (window (load bare_page)) =
    [ ("__threeCube", threeCube); ("showVideoURL", GFunction FnShowVideoURL) ].
Proof. vm_compute. done. Qed.

(** ** The pixel ratio *)

Lemma capped_falsy dpr :
  Js.truthy dpr = false -> capped_pixel_ratio dpr = Js.Fin 1.
Proof.
  unfold capped_pixel_ratio. destruct dpr as [|n]; simpl; [done |].
  by intros ->.
Qed.

Lemma capped_small q :
  (~ q == 0)%Q -> (q <= 2)%Q -> capped_pixel_ratio (Js.Num (Js.Fin q)) = Js.Fin q.
Proof.
  intros Hq Hle. unfold capped_pixel_ratio. simpl.
  destruct (Qeq_bool q 0) eqn:E; [by apply Qeq_bool_iff in E |]. simpl.
  apply Qle_bool_iff in Hle. by rewrite Hle.
Qed.

Lemma capped_large q :
  (2 < q)%Q -> capped_pixel_ratio (Js.Num (Js.Fin q)) = Js.Fin 2.
Proof.
  intros Hlt. unfold capped_pixel_ratio. simpl.
  destruct (Qeq_bool q 0) eqn:E.
  { apply Qeq_bool_iff in E. lra. }
  simpl. destruct (Qle_bool q 2) eqn:E2; [|done].
  apply Qle_bool_iff in E2. lra.
Qed.

Lemma capped_at_most_2 dpr :
  match capped_pixel_ratio dpr with
  | Js.Fin q => (q <= 2)%Q
  | Js.NegInf => True
  | _ => False
  end.
Proof.
  unfold capped_pixel_ratio. destruct dpr as [|[| | |q]]; simpl; try done.
  destruct (Qeq_bool q 0); simpl; [done |].
  destruct (Qle_bool q 2) eqn:E; [by apply Qle_bool_iff | done].
Qed.

Lemma capped_in_range dpr :
  reported_ratio dpr = true -> in_0_2 (capped_pixel_ratio dpr).
Proof.
  destruct dpr as [|[| | |q]]; simpl; try done.
  intros Hq. apply Qle_bool_iff in Hq.
  destruct (Qeq_dec q 0) as [E | E].
  - rewrite capped_falsy; [done |]. simpl. apply Qeq_bool_iff in E. by rewrite E.
  - assert (0 < q)%Q as Hpos by lra.
    destruct (Qlt_le_dec 2 q) as [Hbig | Hsmall].
    + by rewrite capped_large.
    + by rewrite capped_small.
Qed.

(** C10, as stated, fails: not every value of [window.devicePixelRatio]
    gives a ratio in (0, 2].  A negative number is truthy and smaller than 2,
    so it goes through both [||] and [Math.min]: with -1 the renderer is given
    -1. *)
Lemma negative_ratio_passes :
  supported odd_page = true /\
  page_devicePixelRatio odd_page = Js.Num (Js.Fin (-1)) /\
  renderer (load odd_page) ≫= pixelRatio = Some (Js.Fin (-1)) /\
  ~ in_0_2 (Js.Fin (-1)).
Proof.
  split_and!; try (vm_compute; reflexivity).
  intros [H _]. vm_compute in H. discriminate.
Qed.

(** C10, amended.  The renderer's pixel ratio is capped at 2.  The value
    given to [renderer.setPixelRatio], once, while the script loads, is
    [Math.min(window.devicePixelRatio || 1, 2)] for every value of the ratio,
    and no event changes it: 1 when the ratio is [undefined], [NaN] or 0; the
    ratio itself when it is not 0 and at most 2; 2 when it is larger.  It
    never exceeds 2, and it lies in (0, 2] whenever the ratio is [undefined],
    [NaN] or a number that is not negative, which covers what a browser
    reports. *)
Theorem pixel_ratio_capped p evs :
  supported p = true ->
  let dpr := page_devicePixelRatio p in
  let r := capped_pixel_ratio dpr in
  renderer (run p evs) ≫= pixelRatio = Some r /\
  (exists before after, trace (load p) = before ++ ESetPixelRatio r :: after) /\
  occurrences is_set_pixel_ratio (trace (run p evs)) = 1%nat /\
  (Js.truthy dpr = false -> r = Js.Fin 1) /\
  (forall q, dpr = Js.Num (Js.Fin q) -> (~ q == 0)%Q -> (q <= 2)%Q -> r = Js.Fin q) /\
  (forall q, dpr = Js.Num (Js.Fin q) -> (2 < q)%Q -> r = Js.Fin 2) /\
  (dpr = Js.Num Js.PosInf -> r = Js.Fin 2) /\
  match r with Js.Fin q => (q <= 2)%Q | Js.NegInf => True | _ => False end /\
  (reported_ratio dpr = true -> in_0_2 r).
Proof.
  intros Hp dpr r.
  destruct (load_facts p Hp)
    as (w1 & c & b & Hw & _ & _ & _ & Hdpr & _ & _ & _ & _ & _ & _ & _ & Hnone & _).
  pose proof (run_stable p evs Hp) as HS.
  split_and!.
  - pose proof (st_pixelRatio _ _ HS) as H. rewrite Hw in H. simpl in H.
    rewrite Hdpr in H. fold dpr r in H.
    destruct (renderer (run p evs)) as [rd|]; simpl in *; congruence.
  - rewrite Hw. simpl. rewrite Hdpr. fold dpr r.
    exists (trace w1 ++ [ENewRenderer]). eexists. by rewrite <- app_assoc.
  - destruct (st_trace _ _ HS) as (later & -> & Hsetup).
    rewrite occurrences_app, Hw. simpl. rewrite occurrences_app, Hnone.
    rewrite (occurrences_none is_set_pixel_ratio is_setup later); [reflexivity | | done].
    by intros [].
  - apply capped_falsy.
  - intros q Hq. subst r. rewrite Hq. apply capped_small.
  - intros q Hq. subst r. rewrite Hq. apply capped_large.
  - intros Hq. subst r. by rewrite Hq.
  - apply capped_at_most_2.
  - apply capped_in_range.
Qed.

Lemma pixel_ratio_capped_witness :
  supported bare_page = true /\
  reported_ratio (page_devicePixelRatio bare_page) = true /\
  in_0_2 (capped_pixel_ratio (page_devicePixelRatio bare_page)).
Proof.
  split; [reflexivity |]. split; [reflexivity |].
  exact (proj2 (proj2 (proj2 (proj2 (proj2 (proj2 (proj2 (proj2
    (pixel_ratio_capped bare_page [] eq_refl)))))))) eq_refl).
Defined.

(** Ratios 3, 1.5, 0 and a missing one. *)
Example pixel_ratios :
  capped_pixel_ratio (Js.Num (Js.Fin 3)) = Js.Fin 2 /\
  capped_pixel_ratio (Js.Num (Js.Fin (3 # 2))) = Js.Fin (3 # 2) /\
  capped_pixel_ratio (Js.Num (Js.Fin 0)) = Js.Fin 1 /\
  capped_pixel_ratio Js.Undefined = Js.Fin 1 /\
  renderer (load bare_page) ≫= pixelRatio = Some (Js.Fin 2).
Proof. vm_compute. done. Qed.

(** * Further properties of the script *)

(** ** Reasoning over runs *)

Lemma run_ind (p : Page) (P : list Event -> World -> Prop) :
  supported p = true ->
  P [] (load p) ->
  (forall evs e, Inv (run p evs) -> P evs (run p evs) ->
                 P (evs ++ [e]) (step (run p evs) e)) ->
  forall evs, P evs (run p evs).
Proof.
  intros Hp H0 Hs evs. induction evs as [|e evs IH] using rev_ind; [done |].
  rewrite run_snoc. apply Hs; [by apply run_inv | done].
Qed.

Lemma run_app p evs more : run p (evs ++ more) = foldl step (run p evs) more.
Proof. unfold run. by rewrite foldl_app. Qed.

Lemma count_events_snoc P evs e :
  count_events P (evs ++ [e]) = (count_events P evs + if P e then 1 else 0)%nat.
Proof. induction evs as [|x evs IH]; simpl; [lia | rewrite IH; lia]. Qed.

Lemma latest_frame_snoc t0 evs e :
  latest_frame t0 (evs ++ [e]) =
    match e with Frame t => t | _ => latest_frame t0 evs end.
Proof. unfold latest_frame. by rewrite foldl_app. Qed.

Lemma latest_layout_snoc l0 evs e :
  latest_layout l0 (evs ++ [e]) =
    match e with Resize l => l | _ => latest_layout l0 evs end.
Proof. unfold latest_layout. by rewrite foldl_app. Qed.

(** The two ways the script gets through its body. *)
Lemma load_cases p :
  supported p = true ->
  exists b, find_body (page_document p) = Some b /\
    ((exists c, find_id CONTAINER_ID (page_document p) = Some c /\
        load p = loaded (with_container (Some c)
                           (with_trace [EGetElementById CONTAINER_ID true] (boot p)))
                        c b) \/
     (find_id CONTAINER_ID (page_document p) = None /\
        load p = loaded (contained (boot p) b)
                        (b ++ [child_count b (page_document p)]) b)).
Proof.
  intros Hp. destruct (supported_spec p Hp) as (lib & b & H3 & Hb).
  exists b. split; [done |].
  destruct (find_id CONTAINER_ID (page_document p)) as [c|] eqn:Hc.
  - left. exists c. split; [done | by eapply load_found].
  - right. split; [done | by eapply load_created].
Qed.

(** ** The rotation *)

(** X1.  The cube turns on animation frames only, and each frame measures
    its time from the frame before it.  After any run [last] holds the time
    of the latest animation frame, or the time the script read from
    [performance.now()] when there has been none; an event that is not an
    animation frame (a settled promise, a click, a resize, a change of the
    video's ready state, a call from the console) leaves both angles of the
    cube and [last] as they are. *)
Theorem cube_turns_on_frames_only p evs e :
  supported p = true ->
  is_frame e = false ->
  let w := run p evs in
  last w = Some (latest_frame (page_now p) evs) /\
  last (step w e) = last w /\
  rotation_x <$> cube (step w e) = rotation_x <$> cube w /\
  rotation_y <$> cube (step w e) = rotation_y <$> cube w.
Proof.
  intros Hp He w. split.
  - subst w. revert evs.
    apply (run_ind p (fun evs w => last w = Some (latest_frame (page_now p) evs)));
      [done | |].
    + destruct (load_facts p Hp) as (w1 & c & b & Hw & _ & _ & _ & _ & _ & Hnow & _).
      rewrite Hw. simpl. by rewrite Hnow.
    + intros evs e0 HI IH. rewrite latest_frame_snoc.
      set (w := run p evs) in *. step_cases w e0 HI; cbn; congruence.
  - pose proof (run_inv p evs Hp) as HI. fold w in HI.
    step_cases w e HI; cbn; rewrite ?Hcu; done.
Qed.

Lemma cube_turns_on_frames_only_witness :
  supported bare_page = true /\
  is_frame (Settle 0 Resolved) = false /\
  rotation_x <$> cube (step (run bare_page [Frame 16; Frame 33]) (Settle 0 Resolved)) =
    rotation_x <$> cube (run bare_page [Frame 16; Frame 33]).
Proof.
  split; [reflexivity |]. split; [reflexivity |].
  exact (proj1 (proj2 (proj2 (cube_turns_on_frames_only bare_page [Frame 16; Frame 33]
                  (Settle 0 Resolved) eq_refl eq_refl)))).
Defined.

(** ** The render loop *)

(** X2.  The render loop neither stops nor multiplies.  After any run
    exactly one request for an animation frame is pending, and it is for
    [animate]; the scene has been rendered once per animation frame, and
    [requestAnimationFrame] has been called once by the script body and once
    per frame. *)
Theorem render_loop_is_single p evs :
  supported p = true ->
  frame_queue (run p evs) = [FnAnimate] /\
  rendered <$> renderer (run p evs) = Some (count_events is_frame evs) /\
  occurrences is_render (trace (run p evs)) = count_events is_frame evs /\
  occurrences is_request_frame (trace (run p evs)) = S (count_events is_frame evs).
Proof.
  intros Hp. split; [apply (inv_frames _ (run_inv p evs Hp)) |]. revert evs.
  apply (run_ind p (fun evs w =>
    rendered <$> renderer w = Some (count_events is_frame evs) /\
    occurrences is_render (trace w) = count_events is_frame evs /\
    occurrences is_request_frame (trace w) = S (count_events is_frame evs)));
    [done | |].
  - destruct (load_cases p Hp) as (b & _ & [(c & _ & ->) | (_ & ->)]); by split_and!.
  - intros evs e HI (Hr & Ht & Hq). rewrite count_events_snoc.
    set (w := run p evs) in *.
    step_cases w e HI; cbn; rewrite ?occurrences_app; cbn; rewrite ?Nat.add_0_r.
    all: rewrite ?Hrd in *; cbn in *.
    all: try (by split_and!).
    + destruct pc; cbn; rewrite ?Nat.add_0_r; by split_and!.
    + injection Hr as Hr. split_and!; [f_equal |..]; lia.
Qed.

Lemma render_loop_is_single_witness :
  supported bare_page = true /\
  frame_queue (run bare_page [Frame 16; Click; Frame 33; Frame 50]) = [FnAnimate].
Proof.
  split; [reflexivity |].
  exact (proj1 (render_loop_is_single bare_page
                  [Frame 16; Click; Frame 33; Frame 50] eq_refl)).
Defined.

(** ** The overlay button *)

Lemma step_flag w e : Inv w -> materialSet w = true -> materialSet (step w e) = true.
Proof. intros HI Hset. step_cases w e HI; cbn; congruence. Qed.

Lemma steps_flag w evs :
  Inv w -> materialSet w = true -> materialSet (foldl step w evs) = true.
Proof.
  revert w. induction evs as [|e evs IH]; intros w HI Hset; simpl; [done |].
  apply IH; [by apply step_inv | by apply step_flag].
Qed.

Lemma overlay_follows_flag p evs :
  supported p = true ->
  overlay_display (run p evs) =
    Some (if materialSet (run p evs) then Some "none" else None).
Proof.
  intros Hp. revert evs.
  apply (run_ind p (fun _ w =>
    overlay_display w = Some (if materialSet w then Some "none" else None)));
    [done | |].
  - unfold overlay_display. by rewrite load_overlay, load_materialSet.
  - intros evs e HI IH. set (w := run p evs) in *.
    unfold overlay_display, overlay_element in *.
    step_cases w e HI; cbn; rewrite ?Hm in *; try done.
    all: rewrite Hov; erewrite get_at_alter_at by done; cbn.
    all: by rewrite lookup_insert_eq.
Qed.

(** X3.  The overlay button is hidden exactly when the video texture has
    been applied.  After any run the button is in the document; its
    [style.display] is "none" if [materialSet] is true and is not set
    otherwise.  Nothing ever shows the button again once it is hidden:
    whatever events follow a run that has hidden it, [materialSet] is still
    true and [style.display] still "none" after them. *)
Theorem overlay_hidden_iff_texture_applied p evs more :
  supported p = true ->
  overlay_display (run p evs) =
    Some (if materialSet (run p evs) then Some "none" else None) /\
  (overlay_display (run p evs) = Some (Some "none") ->
     materialSet (run p (evs ++ more)) = true /\
     overlay_display (run p (evs ++ more)) = Some (Some "none")).
Proof.
  intros Hp. split; [by apply overlay_follows_flag |].
  rewrite (overlay_follows_flag p evs Hp). intros Hhidden.
  assert (materialSet (run p (evs ++ more)) = true) as Hset.
  { rewrite run_app. apply steps_flag; [by apply run_inv |].
    by destruct (materialSet (run p evs)). }
  split; [done |]. by rewrite (overlay_follows_flag p (evs ++ more) Hp), Hset.
Qed.

Lemma overlay_hidden_iff_texture_applied_witness :
  supported bare_page = true /\
  overlay_display (run bare_page [Click; Settle 1 Resolved]) = Some (Some "none") /\
  overlay_display
    (run bare_page ([Click; Settle 1 Resolved] ++
                    [Frame 16; Settle 0 (Rejected autoplay_refusal); Click;
                     Resize sample_layout])) = Some (Some "none").
Proof.
  assert (overlay_display (run bare_page [Click; Settle 1 Resolved]) =
            Some (Some "none")) as Hhidden by (vm_compute; reflexivity).
  split; [reflexivity |]. split; [exact Hhidden |].
  exact (proj2 (proj2 (overlay_hidden_iff_texture_applied bare_page
                  [Click; Settle 1 Resolved]
                  [Frame 16; Settle 0 (Rejected autoplay_refusal); Click;
                   Resize sample_layout] eq_refl) Hhidden)).
Defined.

(** ** After the last promise *)

Lemma spent_step w e :
  Inv w -> plays w = [] -> overlay_listeners w = [] ->
  let w' := step w e in
  plays w' = [] /\ overlay_listeners w' = [] /\
  materialSet w' = materialSet w /\ material <$> cube w' = material <$> cube w /\
  document w' = document w /\ overlay w' = overlay w.
Proof.
  intros HI Hp Ho. cbn zeta.
  step_cases w e HI; cbn; rewrite ?Hcu; try done.
  all: try (rewrite Hp in Hk; discriminate).
  all: congruence.
Qed.

(** X4.  Once no promise of [video.play()] is pending and the click listener
    is used up, nothing can start the video any more.  From such a state on,
    whatever events follow, no promise is pending, clicks find no listener,
    and the material of the cube, [materialSet] and the overlay button stay
    as they are: after a rejected autoplay and a rejected retry the button
    remains on the page, and clicking it has no effect. *)
Theorem no_way_back_after_the_retry p evs more :
  supported p = true ->
  plays (run p evs) = [] ->
  overlay_listeners (run p evs) = [] ->
  plays (run p (evs ++ more)) = [] /\
  overlay_listeners (run p (evs ++ more)) = [] /\
  materialSet (run p (evs ++ more)) = materialSet (run p evs) /\
  material <$> cube (run p (evs ++ more)) = material <$> cube (run p evs) /\
  overlay_display (run p (evs ++ more)) = overlay_display (run p evs).
Proof.
  intros Hp Hpl Hol. rewrite run_app.
  pose proof (run_inv p evs Hp) as HI. revert HI Hpl Hol.
  generalize (run p evs) as w. intros w.
  assert (forall w0, Inv w0 -> plays w0 = [] -> overlay_listeners w0 = [] ->
    plays (foldl step w0 more) = [] /\
    overlay_listeners (foldl step w0 more) = [] /\
    materialSet (foldl step w0 more) = materialSet w0 /\
    material <$> cube (foldl step w0 more) = material <$> cube w0 /\
    document (foldl step w0 more) = document w0 /\
    overlay (foldl step w0 more) = overlay w0) as Hall.
  { induction more as [|e more IH]; intros w0 HI Hpl Hol; [done |]. simpl.
    destruct (spent_step w0 e HI Hpl Hol) as (H1 & H2 & H3 & H4 & H5 & H6).
    destruct (IH (step w0 e) (step_inv _ e HI) H1 H2) as (? & ? & ? & ? & ? & ?).
    split_and!; congruence. }
  intros HI Hpl Hol. destruct (Hall w HI Hpl Hol) as (? & ? & ? & ? & Hd & Ho).
  split_and!; try done. unfold overlay_display, overlay_element. by rewrite Hd, Ho.
Qed.

Lemma no_way_back_after_the_retry_witness :
  supported bare_page = true /\
  plays (run bare_page
           [Settle 0 (Rejected (Js.DOMException "NotAllowedError")); Click;
            Settle 0 (Rejected (Js.DOMException "NotAllowedError"))]) = [] /\
  overlay_listeners (run bare_page
           [Settle 0 (Rejected (Js.DOMException "NotAllowedError")); Click;
            Settle 0 (Rejected (Js.DOMException "NotAllowedError"))]) = [] /\
  materialSet (run bare_page
           ([Settle 0 (Rejected (Js.DOMException "NotAllowedError")); Click;
             Settle 0 (Rejected (Js.DOMException "NotAllowedError"))]
            ++ [Click; Frame 16; Click])) =
  materialSet (run bare_page
           [Settle 0 (Rejected (Js.DOMException "NotAllowedError")); Click;
            Settle 0 (Rejected (Js.DOMException "NotAllowedError"))]).
Proof.
  assert (plays (run bare_page
           [Settle 0 (Rejected (Js.DOMException "NotAllowedError")); Click;
            Settle 0 (Rejected (Js.DOMException "NotAllowedError"))]) = []) as H1
    by (vm_compute; reflexivity).
  assert (overlay_listeners (run bare_page
           [Settle 0 (Rejected (Js.DOMException "NotAllowedError")); Click;
            Settle 0 (Rejected (Js.DOMException "NotAllowedError"))]) = []) as H2
    by (vm_compute; reflexivity).
  split; [reflexivity |]. split; [exact H1 |]. split; [exact H2 |].
  exact (proj1 (proj2 (proj2 (no_way_back_after_the_retry bare_page
    [Settle 0 (Rejected (Js.DOMException "NotAllowedError")); Click;
     Settle 0 (Rejected (Js.DOMException "NotAllowedError"))]
    [Click; Frame 16; Click] eq_refl H1 H2)))).
Defined.

(** The button of that run is still shown, and dead. *)
Example dead_button :
  let w := run bare_page
             [Settle 0 (Rejected (Js.DOMException "NotAllowedError")); Click;
              Settle 0 (Rejected (Js.DOMException "NotAllowedError"));
              Click; Frame 16; Click] in
  overlay_display w = Some None /\ materialSet w = false /\ plays w = [].
Proof. vm_compute. done. Qed.

(** ** Sizes *)

(** X5.  Renderer size and camera aspect always belong to the latest resize.
    After any run the renderer's size is the pair (w, h) computed from the
    sizes of the latest resize event, or from those found while loading if
    there was none, and the camera's aspect is w / h of the same pair; frames,
    clicks and promises do not touch them.  The projection matrix has been
    updated once by the script body and once per resize event. *)
Theorem size_and_aspect_follow_the_latest_resize p evs :
  supported p = true ->
  let l := latest_layout (page_layout p) evs in
  layout (run p evs) = l /\
  renderer (run p evs) ≫= size = Some (resize_width l, resize_height l) /\
  aspect <$> camera (run p evs) = Some (Js.div_int (resize_width l) (resize_height l)) /\
  projection_updates <$> camera (run p evs) = Some (S (count_events is_resize evs)) /\
  occurrences is_projection (trace (run p evs)) = S (count_events is_resize evs).
Proof.
  intros Hp. cbn zeta. revert evs.
  apply (run_ind p (fun evs w =>
    layout w = latest_layout (page_layout p) evs /\
    renderer w ≫= size =
      Some (resize_width (latest_layout (page_layout p) evs),
            resize_height (latest_layout (page_layout p) evs)) /\
    aspect <$> camera w =
      Some (Js.div_int (resize_width (latest_layout (page_layout p) evs))
                       (resize_height (latest_layout (page_layout p) evs))) /\
    projection_updates <$> camera w = Some (S (count_events is_resize evs)) /\
    occurrences is_projection (trace w) = S (count_events is_resize evs)));
    [done | |].
  - destruct (load_cases p Hp) as (b & _ & [(c & _ & ->) | (_ & ->)]); by split_and!.
  - intros evs e HI (Hlay & Hsz & Has & Hpu & Hpr).
    rewrite latest_layout_snoc, count_events_snoc.
    set (w := run p evs) in *.
    set (L := latest_layout (page_layout p) evs) in *.
    step_cases w e HI; cbn; rewrite ?occurrences_app; cbn; rewrite ?Nat.add_0_r.
    all: rewrite ?Hrd, ?Hcam in *; cbn in *.
    all: try (by split_and!).
    + destruct pc; cbn; rewrite ?Nat.add_0_r; by split_and!.
    + injection Hpu as Hpu. split_and!; try done; [f_equal |]; lia.
Qed.

Lemma size_and_aspect_follow_the_latest_resize_witness :
  supported bare_page = true /\
  layout (run bare_page [Resize (Build_Layout 0 0 1280 720); Frame 16;
                         Resize (Build_Layout 640 480 1280 720); Frame 33]) =
    latest_layout (page_layout bare_page)
      [Resize (Build_Layout 0 0 1280 720); Frame 16;
       Resize (Build_Layout 640 480 1280 720); Frame 33].
Proof.
  split; [reflexivity |].
  exact (proj1 (size_and_aspect_follow_the_latest_resize bare_page
    [Resize (Build_Layout 0 0 1280 720); Frame 16;
     Resize (Build_Layout 640 480 1280 720); Frame 33] eq_refl)).
Defined.

Lemma or_int_zero a b : 0 <= a -> 0 <= b -> (Js.or_int a b = 0 <-> a = 0 /\ b = 0).
Proof. unfold Js.or_int. destruct (Z.eqb_spec a 0); lia. Qed.

Lemma or_int_nonneg a b : 0 <= a -> 0 <= b -> 0 <= Js.or_int a b.
Proof. unfold Js.or_int. destruct (Z.eqb_spec a 0); lia. Qed.

(** X6.  The resize handler does not guard against a height of 0.  For sizes
    that are not negative: the height used is 0 only if both the container's
    [clientHeight] and the window's [innerHeight] are 0, and then the camera's
    aspect becomes [NaN] (width 0) or [Infinity]; in every other case it is a
    finite number, positive unless the width used is 0. *)
Theorem aspect_of_a_flat_window p evs l :
  supported p = true ->
  plausible l ->
  let a := aspect <$> camera (step (run p evs) (Resize l)) in
  (resize_height l = 0 <-> clientHeight l = 0 /\ innerHeight l = 0) /\
  (resize_height l = 0 -> resize_width l = 0 -> a = Some Js.NaN) /\
  (resize_height l = 0 -> resize_width l <> 0 -> a = Some Js.PosInf) /\
  (resize_height l <> 0 ->
     exists q, a = Some (Js.Fin q) /\ (0 <= q)%Q /\ (resize_width l <> 0 -> (0 < q)%Q)).
Proof.
  intros Hp (Hcw & Hch & Hiw & Hih). cbn zeta.
  pose proof (run_inv p evs Hp) as HI. pose proof HI as HI'. open_inv HI.
  erewrite resize_ok by done. cbn.
  pose proof (or_int_nonneg _ _ Hcw Hiw) as HW. fold (resize_width l) in HW.
  pose proof (or_int_nonneg _ _ Hch Hih) as HH. fold (resize_height l) in HH.
  split_and!.
  - unfold resize_height. by rewrite or_int_zero.
  - intros -> ->. reflexivity.
  - intros -> Hw. unfold Js.div_int. simpl.
    destruct (Z.eqb_spec (resize_width l) 0); [done |].
    destruct (Z.ltb_spec 0 (resize_width l)); [done | lia].
  - intros Hh. unfold Js.div_int. destruct (Z.eqb_spec (resize_height l) 0); [done |].
    eexists. split; [reflexivity |].
    assert (0 < inject_Z (resize_height l))%Q as Hpos
      by (rewrite <- (Zlt_Qlt 0); lia).
    split.
    + apply Qle_shift_div_l; [done |]. rewrite Qmult_0_l. rewrite <- (Zle_Qle 0). lia.
    + intros Hw. apply Qlt_shift_div_l; [done |]. rewrite Qmult_0_l.
      rewrite <- (Zlt_Qlt 0). lia.
Qed.

Lemma aspect_of_a_flat_window_witness :
  supported bare_page = true /\ plausible (Build_Layout 300 0 1280 0) /\
  aspect <$> camera (step (run bare_page [Frame 16]) (Resize (Build_Layout 300 0 1280 0)))
    = Some Js.PosInf.
Proof.
  assert (plausible (Build_Layout 300 0 1280 0)) as Hl
    by (unfold plausible; simpl; lia).
  assert (resize_width (Build_Layout 300 0 1280 0) <> 0) as Hw
    by (vm_compute; discriminate).
  split; [reflexivity |]. split; [exact Hl |].
  exact (proj1 (proj2 (proj2 (aspect_of_a_flat_window bare_page [Frame 16]
    (Build_Layout 300 0 1280 0) eq_refl Hl))) eq_refl Hw).
Defined.

(** ** The texture *)

Lemma step_three w e : Inv w -> three (step w e) = three w.
Proof. intros HI. step_cases w e HI; by cbn. Qed.

Lemma run_three p evs : supported p = true -> three (run p evs) = page_three p.
Proof.
  intros Hp. revert evs.
  apply (run_ind p (fun _ w => three w = page_three p)); [done | |].
  - destruct (load_cases p Hp) as (b & _ & [(c & _ & ->) | (_ & ->)]); done.
  - intros evs e HI IH. by rewrite step_three.
Qed.

(** X7.  The video texture is set up for the release of the library at hand.
    After any run either there is no texture and [materialSet] is false, or
    [materialSet] is true and the texture has linear minification and
    magnification filters and no mipmaps; its colour space is sRGB, given as
    [colorSpace = "srgb"] where textures have that property and as
    [encoding = sRGBEncoding] where they do not, never both. *)
Theorem texture_fits_the_library p evs lib :
  supported p = true ->
  page_three p = Some lib ->
  match videoTexture (run p evs) with
  | None => materialSet (run p evs) = false
  | Some t =>
      materialSet (run p evs) = true /\
      minFilter t = Some "LinearFilter" /\ magFilter t = Some "LinearFilter" /\
      generateMipmaps t = Some false /\
      (colorSpace t, encoding t) =
        if has_colorSpace lib then (Some "srgb", None) else (None, Some "sRGBEncoding")
  end.
Proof.
  intros Hp Hlib.
  assert (exists b, videoTexture (run p evs) =
            if materialSet (run p evs)
            then Some (tex_needsUpdate b (video_texture lib)) else None) as [b Hb].
  { revert evs.
    apply (run_ind p (fun _ w => exists b, videoTexture w =
             if materialSet w then Some (tex_needsUpdate b (video_texture lib)) else None));
      [done | |].
    - exists false.
      destruct (load_cases p Hp) as (b & _ & [(c & _ & ->) | (_ & ->)]); done.
    - intros evs e HI [b IH].
      pose proof (run_three p evs Hp) as H3'. rewrite Hlib in H3'.
      set (w := run p evs) in *.
      step_cases w e HI; cbn; rewrite ?Hm in *; try (by exists b).
      + exists false. rewrite H3 in H3'. injection H3' as ->.
        unfold video_texture. destruct (has_colorSpace lib); reflexivity.
      + rewrite IH, Hv. destruct (materialSet w); cbn; [|by exists b].
        destruct (Z.leb 2 (readyState vid0)); [by exists true | by exists b]. }
  rewrite Hb. destruct (materialSet (run p evs)); [|done].
  unfold video_texture, new_VideoTexture.
  destruct (has_colorSpace lib); cbn; by split_and!.
Qed.

Lemma texture_fits_the_library_witness :
  supported prepared_page = true /\
  page_three prepared_page = Some {| has_colorSpace := false |} /\
  match videoTexture (run prepared_page [Settle 0 Resolved; Media 4; Frame 16]) with
  | None => materialSet (run prepared_page [Settle 0 Resolved; Media 4; Frame 16]) = false
  | Some t =>
      materialSet (run prepared_page [Settle 0 Resolved; Media 4; Frame 16]) = true /\
      minFilter t = Some "LinearFilter" /\ magFilter t = Some "LinearFilter" /\
      generateMipmaps t = Some false /\
      (colorSpace t, encoding t) =
        if has_colorSpace {| has_colorSpace := false |}
        then (Some "srgb", None) else (None, Some "sRGBEncoding")
  end.
Proof.
  split; [reflexivity |]. split; [reflexivity |].
  exact (texture_fits_the_library prepared_page [Settle 0 Resolved; Media 4; Frame 16]
           {| has_colorSpace := false |} eq_refl eq_refl).
Defined.

(** On the old release the texture gets an encoding, on the new one a colour
    space. *)
Example texture_on_both_releases :
  (encoding <$> videoTexture (run prepared_page [Settle 0 Resolved]),
   colorSpace <$> videoTexture (run prepared_page [Settle 0 Resolved])) =
    (Some (Some "sRGBEncoding"), Some None) /\
  (encoding <$> videoTexture (run bare_page [Settle 0 Resolved]),
   colorSpace <$> videoTexture (run bare_page [Settle 0 Resolved])) =
    (Some None, Some (Some "srgb")).
Proof. vm_compute. done. Qed.

(** ** A page without a body, a page without the library *)

Lemma find_body_none_push c p doc :
  has_tag "body" c = false ->
  find_body doc = None -> find_body (alter_at (push_child c) p doc) = None.
Proof.
  intros Hc Hb. unfold find_body in *. destruct p as [|k p]; simpl.
  - rewrite first_in_None in *. apply Forall_app. split; [done |].
    constructor; [by rewrite Hc | constructor].
  - destruct (children doc !! k) eqn:E; [|done]. simpl.
    erewrite first_in_insert; [done | done |].
    unfold has_tag. by rewrite alter_at_tag.
Qed.

Lemma rest_no_body w1 lib c :
  three w1 = Some lib -> container w1 = Some c ->
  find_body (document w1) = None -> overlay_listeners w1 = [] ->
  exists w2,
    rest w1 = (w2, inl (Js.TypeError "document.body is null")) /\
    document w2 = alter_at (push_child (node "canvas")) c (document w1) /\
    is_Some (renderer w2) /\ overlay_listeners w2 = [click_listener] /\
    plays w2 = plays w1 /\ window_listeners w2 = window_listeners w1 /\
    frame_queue w2 = frame_queue w1 /\ window w2 = window w1 /\
    uncaught w2 = uncaught w1.
Proof.
  intros H3 Hc Hb Hol.
  pose proof (find_body_none_push (node "canvas") c _ eq_refl Hb) as Hb2.
  destruct w1; simpl in *; subst.
  unfold rest, setup_renderer, setup_scene, setup_video, setup_overlay.
  repeat (progress (run_m; rewrite ?Hb2)).
  eexists. split; [reflexivity |]. by split_and!.
Qed.

(** X8.  The script needs [document.body].  On a page whose document has no
    body yet, the script ends in an uncaught error before it has called
    [video.play()], registered the resize listener, requested an animation
    frame or set a global, and no button is added; an animation frame then
    does nothing.  Without a container the error is the [TypeError] of
    [document.body.appendChild] on line 19 and the document is untouched;
    with a container (and the library) the renderer is made and its canvas
    put into the container before the same error stops the script on line
    69. *)
Theorem script_needs_a_body p :
  find_body (page_document p) = None ->
  let doc := page_document p in
  let w := load p in
  plays w = [] /\ window_listeners w = [] /\ frame_queue w = [] /\
  window w = GHost <$> page_window p /\
  count_tag "button" (document w) = count_tag "button" doc /\
  (forall t, step w (Frame t) = w) /\
  (find_id CONTAINER_ID doc = None ->
     uncaught w = [Js.TypeError "document.body is null"] /\
     document w = doc /\ renderer w = None) /\
  (forall c lib, find_id CONTAINER_ID doc = Some c -> page_three p = Some lib ->
     uncaught w = [Js.TypeError "document.body is null"] /\
     document w = alter_at (push_child (node "canvas")) c doc /\
     is_Some (renderer w)) /\
  (forall c, find_id CONTAINER_ID doc = Some c -> page_three p = None ->
     uncaught w = [Js.ReferenceError "THREE"] /\ document w = doc /\
     renderer w = None).
Proof.
  intros Hb. cbn zeta. unfold load, task.
  change main with (bind setup_container (fun _ => rest)).
  destruct (find_id CONTAINER_ID (page_document p)) as [c|] eqn:Hc.
  - erewrite bind_ok by (by apply setup_container_found).
    destruct (page_three p) as [lib|] eqn:H3.
    + destruct (rest_no_body (with_container (Some c)
                  (with_trace (trace (boot p) ++ [EGetElementById CONTAINER_ID true])
                     (boot p))) lib c)
        as (w2 & -> & Hd & Hr & _ & Hpl & Hwl & Hfq & Hwin & Hun); try done.
      simpl in *. rewrite Hd, Hpl, Hwl, Hfq, Hwin, Hun.
      split_and!; try done.
      * unfold count_tag. rewrite count_appended; [| apply shallow_has_tag |].
        -- unfold count at 2. simpl. lia.
        -- apply find_id_Some in Hc as (e & -> & _). by eexists.
      * intros t. cbn. destruct w2; cbn in *. by subst.
      * intros c' lib' [= <-] _. by split_and!.
    + rewrite rest_no_three by done. simpl. by split_and!.
  - erewrite bind_throws by (by apply setup_container_no_body). simpl.
    by split_and!.
Qed.

Lemma script_needs_a_body_witness :
  find_body (page_document headless_page) = None /\
  plays (load headless_page) = [].
Proof.
  split; [reflexivity |].
  exact (proj1 (script_needs_a_body headless_page eq_refl)).
Defined.

(** The script in the head of a page: one error, nothing on the page. *)
Example script_in_the_head :
  uncaught (load headless_page) = [Js.TypeError "document.body is null"] /\
  document (load headless_page) = page_document headless_page /\
  trace (run headless_page [Frame 16; Click; Resize sample_layout]) =
    [EGetElementById CONTAINER_ID false; ECreateElement "div"].
Proof. vm_compute. done. Qed.

(** X9.  The container is made before the library is needed.  On a page
    with a body but without the global [THREE] and without a container, the
    script stops at line 23 with an uncaught [ReferenceError], and the [div]
    it has created on lines 13-19 stays behind: the last child of the body,
    carrying the id, fixed to the whole viewport, and empty. *)
Theorem container_outlives_a_missing_library p b :
  page_three p = None ->
  find_body (page_document p) = Some b ->
  find_id CONTAINER_ID (page_document p) = None ->
  let doc := page_document p in
  let w := load p in
  uncaught w = [Js.ReferenceError "THREE"] /\
  document w = alter_at (push_child (container_div (node "div"))) b doc /\
  count_id CONTAINER_ID (document w) = 1%nat /\
  count_tag "canvas" (document w) = count_tag "canvas" doc /\
  exists e, get_at (b ++ [child_count b doc]) (document w) = Some e /\
    eid e = CONTAINER_ID /\ tag e = "div" /\ children e = [] /\
    style e !! "position" = Some "fixed" /\ style e !! "inset" = Some "0".
Proof.
  intros H3 Hb Hc. cbn zeta. unfold load, task.
  change main with (bind setup_container (fun _ => rest)).
  erewrite bind_ok by (by apply setup_container_created).
  rewrite rest_no_three by done. simpl.
  pose proof (find_body_valid _ _ Hb) as Hvalid.
  split_and!; try done.
  - unfold count_id. rewrite count_appended; [| apply shallow_has_id | done].
    apply find_id_None in Hc. unfold count_id in Hc. rewrite Hc. reflexivity.
  - unfold count_tag. rewrite count_appended; [| apply shallow_has_tag | done].
    unfold count at 2. simpl. lia.
  - exists (container_div (node "div")). split; [by apply get_at_appended |].
    by split_and!.
Qed.

Lemma container_outlives_a_missing_library_witness :
  page_three broken_page = None /\
  find_body (page_document broken_page) = Some [1%nat] /\
  find_id CONTAINER_ID (page_document broken_page) = None /\
  count_id CONTAINER_ID (document (load broken_page)) = 1%nat.
Proof.
  split; [reflexivity |]. split; [reflexivity |]. split; [reflexivity |].
  exact (proj1 (proj2 (proj2 (container_outlives_a_missing_library broken_page [1%nat]
    eq_refl eq_refl eq_refl)))).
Defined.

(** ** What the script puts into the document *)

Lemma count_restyled P k v p e :
  shallow P -> (forall x, P (set_style k v x) = P x) ->
  count P (alter_at (set_style k v) p e) = count P e.
Proof.
  intros HP Hs. destruct (get_at p e) as [x|] eqn:Hx.
  - pose proof (count_alter_at P (set_style k v) p e x HP Hx) as H.
    assert (count P (set_style k v x) = count P x) as Hc.
    { rewrite !count_unfold. by rewrite Hs. }
    lia.
  - by rewrite alter_at_dangling.
Qed.

Lemma step_count P w e :
  shallow P -> (forall k v x, P (set_style k v x) = P x) ->
  Inv w -> count P (document (step w e)) = count P (document w).
Proof.
  intros HP Hs HI. step_cases w e HI; cbn; try done.
  all: by apply count_restyled.
Qed.

Lemma load_count P p :
  shallow P -> supported p = true ->
  count P (document (load p)) =
    (count P (page_document p)
     + (if Js.defined (find_id CONTAINER_ID (page_document p)) then 0
        else count P (container_div (node "div")))
     + count P (node "canvas") + count P (overlay_button (node "button")))%nat.
Proof.
  intros HP Hp.
  set (n1 := count P (node "canvas")).
  set (n2 := count P (overlay_button (node "button"))).
  set (n3 := count P (container_div (node "div"))).
  destruct (load_cases p Hp) as (b & Hb & [(c & Hc & ->) | (Hc & ->)]); rewrite Hc.
  - rewrite loaded_count; [fold n1 n2; simpl; lia | done | | done].
    simpl. apply find_id_Some in Hc as (e & -> & _). by eexists.
  - rewrite loaded_count; [fold n1 n2 | done | |].
    + simpl. rewrite count_appended; [fold n3; lia | done | by apply find_body_valid].
    + simpl. apply mk_is_Some with (container_div (node "div")).
      apply get_at_appended. by apply find_body_valid.
    + simpl. apply find_body_alter_at; [apply grows_push_child | done].
Qed.

(** X10.  The script adds a canvas and a button to the document, and the
    container when the page has none; nothing else, at any time.  After any
    run the document has two elements more than the page had, three when the
    container was created: one canvas and one button more, and as many
    [video] elements as before, the video element never being inserted. *)
Theorem document_gains_canvas_and_button p evs :
  supported p = true ->
  let doc := page_document p in
  let d := document (run p evs) in
  count every_element d =
    (count every_element doc + 2
     + if Js.defined (find_id CONTAINER_ID doc) then 0 else 1)%nat /\
  count_tag "canvas" d = S (count_tag "canvas" doc) /\
  count_tag "button" d = S (count_tag "button" doc) /\
  count_tag "video" d = count_tag "video" doc.
Proof.
  intros Hp. cbn zeta.
  assert (forall P, shallow P -> (forall k v x, P (set_style k v x) = P x) ->
            count P (document (run p evs)) = count P (document (load p))) as Hrun.
  { intros P HP Hs. revert evs.
    apply (run_ind p (fun _ w => count P (document w) = count P (document (load p))));
      [done | done |].
    intros evs e HI IH. by rewrite step_count. }
  unfold count_tag.
  rewrite !Hrun by done. rewrite !load_count by done.
  repeat match goal with
         | |- context [count ?P (node ?t)] =>
             let n := eval vm_compute in (count P (node t)) in
             change (count P (node t)) with n
         | |- context [count ?P (?f (node ?t))] =>
             let n := eval vm_compute in (count P (f (node t))) in
             change (count P (f (node t))) with n
         end.
  destruct (Js.defined (find_id CONTAINER_ID (page_document p))); split_and!; lia.
Qed.

Lemma document_gains_canvas_and_button_witness :
  supported prepared_page = true /\
  count_tag "video"
    (document (run prepared_page [Settle 0 Resolved; Frame 16; Click])) =
  count_tag "video" (page_document prepared_page).
Proof.
  split; [reflexivity |].
  exact (proj2 (proj2 (proj2 (document_gains_canvas_and_button prepared_page
    [Settle 0 Resolved; Frame 16; Click] eq_refl)))).
Defined.

(** The sample page, three elements at first, has six after a run. *)
Example elements_of_the_sample_page :
  count every_element (page_document bare_page) = 3%nat /\
  count every_element (document (run bare_page [Settle 0 Resolved; Frame 16])) = 6%nat.
Proof. vm_compute. done. Qed.

End CubeFacts.
